(** * The Zen of Python decyphered: a Caesar-shift search

    Shallow embedding of the notebook [Zen Of Python/this_decyphered.ipynb]:
    the tokenizer [get_words], the cell that sorts the dictionary, the
    construction of the rotated alphabet and of the substitution table,
    and the [while matches < 25] search loop.

    Texts are Python [str] values whose code points are below 256; they are
    modelled by [string], one [ascii] per code point.  Python integers are
    [Z].  A Python [dict] is a [gmap]. *)

From Stdlib Require Import ZArith Lia Ascii String List Bool.
From stdpp Require Import base option list gmap strings.

Local Open Scope string_scope.
Local Open Scope list_scope.
Local Open Scope Z_scope.

(** ** Python strings *)

Module PyStr.

Definition ord (c : ascii) : Z := Z.of_nat (nat_of_ascii c).
Definition chr (n : Z) : ascii := ascii_of_nat (Z.to_nat n).

(** [len(s)] *)
Definition len (s : string) : Z := Z.of_nat (String.length s).

Fixpoint take (n : nat) (s : string) : string :=
  match n, s with
  | S n', String c s' => String c (take n' s')
  | _, _ => ""
  end.

Fixpoint drop (n : nat) (s : string) : string :=
  match n, s with
  | S n', String _ s' => drop n' s'
  | _, _ => s
  end.

(** How a slice bound is normalised: a negative bound counts from the
    end, and every bound is clamped to [0, len]. *)
Definition slice_index (n i : Z) : Z :=
  if i <? 0 then Z.max 0 (n + i) else Z.min i n.

(** [s[i:]] *)
Definition slice_from (s : string) (i : Z) : string :=
  drop (Z.to_nat (slice_index (len s) i)) s.

(** [s[:i]] *)
Definition slice_to (s : string) (i : Z) : string :=
  take (Z.to_nat (slice_index (len s) i)) s.

(** [c.lower()] on one code point below 256: the ASCII capitals and the
    Latin-1 capitals (U+00C0..U+00DE without the sign U+00D7) move up by
    32, everything else is its own lowercase. *)
Definition lower_char (c : ascii) : ascii :=
  let n := ord c in
  if ((65 <=? n) && (n <=? 90))
     || ((192 <=? n) && (n <=? 222) && negb (n =? 215))
  then chr (n + 32) else c.

Fixpoint map (f : ascii -> ascii) (s : string) : string :=
  match s with
  | "" => ""
  | String c s' => String (f c) (map f s')
  end.

(** [s.lower()] *)
Definition lower (s : string) : string := map lower_char s.

(** The code points below 256 on which [str.split()] without argument
    separates: TAB, LF, VT, FF, CR, the four separators FS, GS, RS, US,
    the space, NEL and the no-break space. *)
Definition isspace (c : ascii) : bool :=
  let n := ord c in
  ((9 <=? n) && (n <=? 13)) || ((28 <=? n) && (n <=? 32))
  || (n =? 133) || (n =? 160).

(** [s.split(sep)] for a one-character separator: every occurrence
    cuts, empty pieces are kept, and the result is never empty. *)
Fixpoint split_on (sep : ascii) (s : string) : list string :=
  match s with
  | "" => [""]
  | String c s' =>
      if Ascii.eqb c sep then "" :: split_on sep s'
      else match split_on sep s' with
           | piece :: rest => String c piece :: rest
           | [] => [String c ""]
           end
  end.

(** [s.split()]: scan from the left, [cur] being the word collected so
    far; a word is emitted when a separator or the end is met, and runs
    of separators emit nothing. *)
Fixpoint split_scan (cur : string) (s : string) : list string :=
  match s with
  | "" => if String.eqb cur "" then [] else [cur]
  | String c s' =>
      if isspace c
      then (if String.eqb cur "" then split_scan "" s'
            else cur :: split_scan "" s')
      else split_scan (cur +:+ String c "") s'
  end.

Definition split (s : string) : list string := split_scan "" s.

(** [zip(a, b)] of two strings, as the list of pairs it yields. *)
Fixpoint zip (a b : string) : list (ascii * ascii) :=
  match a, b with
  | String x a', String y b' => (x, y) :: zip a' b'
  | _, _ => []
  end.

(** [dict(pairs)]: the pairs are inserted from left to right, a later
    pair overriding an earlier one with the same key. *)
Definition dict_of (pairs : list (ascii * ascii)) : gmap ascii ascii :=
  fold_left (fun m kv => <[kv.1 := kv.2]> m) pairs ∅.

(** [s.translate(s.maketrans(d))] for a dict [d] from one-character
    strings to one-character strings: a character that is a key of [d]
    is replaced by its value, any other character is kept. *)
Definition translate_char (d : gmap ascii ascii) (c : ascii) : ascii :=
  default c (d !! c).

Definition translate (d : gmap ascii ascii) (s : string) : string :=
  map (translate_char d) s.

End PyStr.

(** ** Values that [json.load] puts in the dictionary

    The loop only tests them for truth.  A JSON number is taken to be an
    integer; numbers with a fraction or an exponent are not modelled. *)

#[warnings="-register-all"]
Inductive pyval : Type :=
  | PyNone
  | PyBool (b : bool)
  | PyInt (z : Z)
  | PyString (s : string)
  | PyList (l : list pyval)
  | PyDict (l : list (string * pyval)).

(** Truth value testing, as the [if] statement applies it: [None],
    [False], zero and the empty string, list and dict are false. *)
Definition truthy (v : pyval) : bool :=
  match v with
  | PyNone => false
  | PyBool b => b
  | PyInt z => negb (z =? 0)
  | PyString s => negb (String.eqb s "")
  | PyList l => match l with [] => false | _ => true end
  | PyDict l => match l with [] => false | _ => true end
  end.

(** ** The notebook *)

(** The line feed, ['\n']. *)
Definition newline : ascii := "010"%char.

(** [def get_words(s)]: the words of every line, in the order the
    generator yields them. *)
Definition get_words (s : string) : list string :=
  concat (List.map PyStr.split (PyStr.split_on newline s)).

(** [DIRECT = 'ABCDEFGHIJKLMNOPQRSTUVWXYZ'.lower()] *)
Definition DIRECT : string := PyStr.lower "ABCDEFGHIJKLMNOPQRSTUVWXYZ".

(** [cypher = DIRECT[26-shift:]+DIRECT[:26-shift]] *)
Definition cypher (shift : Z) : string :=
  PyStr.slice_from DIRECT (26 - shift) +:+ PyStr.slice_to DIRECT (26 - shift).

(** [switch = dict(zip(DIRECT,cypher))] *)
Definition switch (shift : Z) : gmap ascii ascii :=
  PyStr.dict_of (PyStr.zip DIRECT (cypher shift)).

(** [translated = s.maketrans(switch); s = s.translate(translated)] *)
Definition substitute (shift : Z) (s : string) : string :=
  PyStr.translate (switch shift) s.

(** The counting loop: [if dictionary.get(word, None): matches += 1]. *)
Definition dict_get (dictionary : gmap string pyval) (word : string) : pyval :=
  default PyNone (dictionary !! word).

Definition count_word (dictionary : gmap string pyval) (matches : Z)
    (word : string) : Z :=
  if truthy (dict_get dictionary word) then matches + 1 else matches.

Definition count_matches (dictionary : gmap string pyval)
    (words : list string) : Z :=
  fold_left (count_word dictionary) words 0.

(** The variables the loop reads and writes. *)
Record state : Type := State {
  s : string;
  shift : Z;
  matches : Z
}.

Section Search.

Variable dictionary : gmap string pyval.
(** The literal of the loop condition; the notebook has 25. *)
Variable threshold : Z.

(** The state before the loop: [s = s.lower(); shift = 0; matches = 0]. *)
Definition init (s0 : string) : state :=
  {| s := PyStr.lower s0; shift := 0; matches := 0 |}.

(** One pass through the body of the [while]. *)
Definition body (st : state) : state :=
  let s' := substitute (shift st) (s st) in
  {| s := s';
     shift := shift st + 1;
     matches := count_matches dictionary (get_words s') |}.

(** The state after [n] passes, whatever the loop condition says. *)
Fixpoint passes (n : nat) (st : state) : state :=
  match n with
  | O => st
  | S n' => body (passes n' st)
  end.

(** [while matches < threshold: body], with [fuel] bounding the number
    of passes: [None] when the fuel runs out before the condition
    fails. *)
Fixpoint while (fuel : nat) (st : state) : option state :=
  if matches st <? threshold then
    match fuel with
    | O => None
    | S fuel' => while fuel' (body st)
    end
  else Some st.

(** What the final [print] shows: [shift-1] and [s]. *)
Definition report (st : state) : Z * string := (shift st - 1, s st).

Definition search (fuel : nat) (s0 : string) : option (Z * string) :=
  report <$> while fuel (init s0).

End Search.

(** The search as the notebook runs it. *)
Definition THRESHOLD : Z := 25.
Definition decypher (dictionary : gmap string pyval) (s0 : string)
    (fuel : nat) : option (Z * string) :=
  search dictionary THRESHOLD fuel s0.

(** ** Rotations, as the specification words them *)

(** Rotating an alphabet right by [r] positions: its last [r] letters are
    moved to the front. *)
Definition rotate_right (r : nat) (a : string) : string :=
  PyStr.drop (String.length a - r) a +:+ PyStr.take (String.length a - r) a.

Definition is_letter (c : ascii) : bool :=
  (97 <=? PyStr.ord c) && (PyStr.ord c <=? 122).

(** The substitution of net shift [r] on one character: the letter at
    index [i] of the alphabet becomes the letter at index [i] of the
    alphabet rotated right by [r], which is the letter at index
    [(i - r) mod 26]; any other character is kept. *)
Definition rot_char (r : Z) (c : ascii) : ascii :=
  if is_letter c then PyStr.chr (97 + (PyStr.ord c - 97 - r) mod 26) else c.

(** A text under the net rotation [r]. *)
Definition rotate (r : Z) (t : string) : string := PyStr.map (rot_char r) t.

(** The number [n(n-1)/2]. *)
Definition triangular (n : Z) : Z := n * (n - 1) / 2.

(** The characters of a text that are not separators, in order. *)
Fixpoint visible (t : string) : string :=
  match t with
  | "" => ""
  | String c t' => if PyStr.isspace c then visible t' else String c (visible t')
  end.

(** The words of a list glued together, in order. *)
Fixpoint joined (ws : list string) : string :=
  match ws with
  | [] => ""
  | w :: ws' => w +:+ joined ws'
  end.

Definition nonspace (c : ascii) : bool := negb (PyStr.isspace c).

Definition not_newline (c : ascii) : bool := negb (Ascii.eqb c newline).

(** Every character of a text satisfies [p]. *)
Fixpoint all_chars (p : ascii -> bool) (t : string) : bool :=
  match t with
  | "" => true
  | String c t' => p c && all_chars p t'
  end.

(** The 256 code points, and the finite check that the table the notebook
    builds for the counter value [k] is the substitution of net shift
    [k mod 26]. *)
Definition code_points : list ascii := List.map ascii_of_nat (seq 0 256).

Definition table_agrees (k : nat) : bool :=
  forallb (fun c => Ascii.eqb (PyStr.translate_char (switch (Z.of_nat k)) c)
                              (rot_char (Z.of_nat k mod 26) c))
          code_points.

(** ** Sample inputs *)

(** The text [a b], a line feed, [c]. *)
Definition two_lines : string := "a b" +:+ String newline "c".

(** Twenty-five tokens, each the letter [a] moved three places on. *)
Definition cipher_d : string :=
  "D d d d d d d d d d d d d d d d d d d d d d d d d".

Definition plain_a : string :=
  "a a a a a a a a a a a a a a a a a a a a a a a a a".

Definition dict_a : gmap string pyval := {[ "a" := PyInt 1 ]}.

Definition dict_beautiful : gmap string pyval := {[ "beautiful" := PyInt 1 ]}.

(** ** The dictionary cell *)

(** A [dict] with string keys as the list of its items, in insertion
    order; the keys of a [dict] are distinct.  [json.load] hands the
    notebook such a [dict]. *)

(** [d.get(word, None)] on the items of a [dict]. *)
Fixpoint items_get (d : list (string * pyval)) (word : string) : pyval :=
  match d with
  | [] => PyNone
  | (k, v) :: d' => if String.eqb k word then v else items_get d' word
  end.

(** The order [sorted] puts two items in: tuples compare by their first
    components when these differ, and strings compare code point by code
    point.  Two items of one [dict] never have the same key, so the
    values are not looked at. *)
Definition item_leb (a b : string * pyval) : bool := String.leb a.1 b.1.

Fixpoint insert_item (x : string * pyval) (l : list (string * pyval)) :
    list (string * pyval) :=
  match l with
  | [] => [x]
  | y :: l' => if item_leb x y then x :: y :: l' else y :: insert_item x l'
  end.

(** [sorted(d.items())] *)
Definition sorted_items (d : list (string * pyval)) : list (string * pyval) :=
  fold_right insert_item [] d.

(** [d[k] = v]: the value of a present key is replaced in place, a new
    key is appended. *)
Fixpoint od_set (k : string) (v : pyval) (d : list (string * pyval)) :
    list (string * pyval) :=
  match d with
  | [] => [(k, v)]
  | (k', v') :: d' =>
      if String.eqb k' k then (k', v) :: d' else (k', v') :: od_set k v d'
  end.

(** [OrderedDict(pairs)] *)
Definition OrderedDict (pairs : list (string * pyval)) :
    list (string * pyval) :=
  fold_left (fun d kv => od_set kv.1 kv.2 d) pairs [].

(** [dictionary= OrderedDict(sorted(dictionary.items()))] *)
Definition sort_dictionary (d : list (string * pyval)) :
    list (string * pyval) :=
  OrderedDict (sorted_items d).

(** The finite map of a [dict] given by its items: what the loop looks
    words up in. *)
Definition lookup_table (d : list (string * pyval)) : gmap string pyval :=
  list_to_map d.

(** The keys go up strictly from each item to the next. *)
Fixpoint keys_ascending (d : list (string * pyval)) : bool :=
  match d with
  | a :: d' =>
      match d' with
      | b :: _ => String.ltb a.1 b.1 && keys_ascending d'
      | [] => true
      end
  | [] => true
  end.

(** ** What a counter value does to a text *)

(** The net shift of the table built for the counter value [k]: [k]
    modulo 26 from 0 to 52, nothing outside. *)
Definition net_shift (k : Z) : Z :=
  if (0 <=? k) && (k <=? 52) then k mod 26 else 0.

(** The net rotations the loop goes through, pass after pass, until they
    repeat: the residues modulo 26 of the triangular numbers. *)
Definition tried_shifts : list Z :=
  [0; 1; 3; 6; 10; 15; 21; 2; 19; 14; 13; 16; 23; 8].

(** The text holds one of the 26 letters of [DIRECT]. *)
Fixpoint has_letter (t : string) : bool :=
  match t with
  | "" => false
  | String c t' => is_letter c || has_letter t'
  end.

(** The lines of a text, put together with line feeds between them. *)
Fixpoint unlines (ls : list string) : string :=
  match ls with
  | [] => ""
  | [l] => l
  | l :: ls' => l +:+ String newline (unlines ls')
  end.

(** ** More sample inputs *)

(** The ciphertext of the first code cell, the triple-quoted literal
    bound to [s], line by line. *)
Definition zen_cyphered : string :=
  unlines
  [ "Gur Mra bs Clguba, ol Gvz Crgref";
    "";
    "Ornhgvshy vf orggre guna htyl.";
    "Rkcyvpvg vf orggre guna vzcyvpvg.";
    "Fvzcyr vf orggre guna pbzcyrk.";
    "Pbzcyrk vf orggre guna pbzcyvpngrq.";
    "Syng vf orggre guna arfgrq.";
    "Fcnefr vf orggre guna qrafr.";
    "Ernqnovyvgl pbhagf.";
    "Fcrpvny pnfrf nera'g fcrpvny rabhtu gb oernx gur ehyrf.";
    "Nygubhtu cenpgvpnyvgl orngf chevgl.";
    "Reebef fubhyq arire cnff fvyragyl.";
    "Hayrff rkcyvpvgyl fvyraprq.";
    "Va gur snpr bs nzovthvgl, ershfr gur grzcgngvba gb thrff.";
    "Gurer fubhyq or bar-- naq cersrenoyl bayl bar --boivbhf jnl gb qb vg.";
    "Nygubhtu gung jnl znl abg or boivbhf ng svefg hayrff lbh'er Qhgpu.";
    "Abj vf orggre guna arire.";
    "Nygubhtu arire vf bsgra orggre guna *evtug* abj.";
    "Vs gur vzcyrzragngvba vf uneq gb rkcynva, vg'f n onq vqrn.";
    "Vs gur vzcyrzragngvba vf rnfl gb rkcynva, vg znl or n tbbq vqrn.";
    "Anzrfcnprf ner bar ubaxvat terng vqrn -- yrg'f qb zber bs gubfr!" ].

(** The text the notebook shows under [Shift: 13], line by line. *)
Definition zen_printed : string :=
  unlines
  [ "the zen of python, by tim peters";
    "";
    "beautiful is better than ugly.";
    "explicit is better than implicit.";
    "simple is better than complex.";
    "complex is better than complicated.";
    "flat is better than nested.";
    "sparse is better than dense.";
    "readability counts.";
    "special cases aren't special enough to break the rules.";
    "although practicality beats purity.";
    "errors should never pass silently.";
    "unless explicitly silenced.";
    "in the face of ambiguity, refuse the temptation to guess.";
    "there should be one-- and preferably only one --obvious way to do it.";
    "although that way may not be obvious at first unless you're dutch.";
    "now is better than never.";
    "although never is often better than *right* now.";
    "if the implementation is hard to explain, it's a bad idea.";
    "if the implementation is easy to explain, it may be a good idea.";
    "namespaces are one honking great idea -- let's do more of those!" ].

(** Three words of the plain text, enough for 26 matches. *)
Definition dict_zen : gmap string pyval :=
  {[ "is" := PyInt 1; "better" := PyInt 1; "than" := PyInt 1 ]}.

(** Twenty-five tokens, each the letter [a] moved four places on. *)
Definition cipher_e : string :=
  "e e e e e e e e e e e e e e e e e e e e e e e e e".

(** The items of a small dictionary file, not in order. *)
Definition items_sample : list (string * pyval) :=
  [("zen", PyInt 1); ("a", PyInt 1); ("python", PyInt 0)].

(** ** Characters *)

Lemma chr_ord c : PyStr.chr (PyStr.ord c) = c.
Proof.
  unfold PyStr.chr, PyStr.ord. rewrite Nat2Z.id. apply ascii_nat_embedding.
Qed.

Lemma ord_chr n : 0 <= n < 256 -> PyStr.ord (PyStr.chr n) = n.
Proof.
  intros Hn. unfold PyStr.chr, PyStr.ord.
  rewrite nat_ascii_embedding by lia. lia.
Qed.

Lemma code_points_complete c : In c code_points.
Proof.
  unfold code_points. apply in_map_iff. exists (nat_of_ascii c). split.
  - apply ascii_nat_embedding.
  - apply in_seq. pose proof (nat_ascii_bounded c). lia.
Qed.

(** ** The substitution of a net shift *)

Lemma rot_char_letter r c : is_letter (rot_char r c) = is_letter c.
Proof.
  unfold rot_char. destruct (is_letter c) eqn:Hc; [|exact Hc].
  unfold is_letter. rewrite ord_chr.
  - pose proof (Z.mod_pos_bound (PyStr.ord c - 97 - r) 26). lia.
  - pose proof (Z.mod_pos_bound (PyStr.ord c - 97 - r) 26). lia.
Qed.

Lemma rot_char_add a b c :
  rot_char b (rot_char a c) = rot_char ((a + b) mod 26) c.
Proof.
  pose proof (rot_char_letter a c) as Hl.
  unfold rot_char at 1. rewrite Hl.
  unfold rot_char. destruct (is_letter c) eqn:Hc; [|reflexivity].
  f_equal. f_equal.
  pose proof (Z.mod_pos_bound (PyStr.ord c - 97 - a) 26).
  rewrite ord_chr by lia.
  replace (97 + (PyStr.ord c - 97 - a) mod 26 - 97 - b)
    with ((PyStr.ord c - 97 - a) mod 26 - b) by lia.
  rewrite Zminus_mod_idemp_l, Zminus_mod_idemp_r. f_equal. lia.
Qed.

Lemma rot_char_0 c : rot_char 0 c = c.
Proof.
  unfold rot_char. destruct (is_letter c) eqn:Hc; [|reflexivity].
  unfold is_letter in Hc. rewrite Z.mod_small by lia.
  replace (97 + (PyStr.ord c - 97 - 0)) with (PyStr.ord c) by lia.
  apply chr_ord.
Qed.

Lemma rot_char_mod r c : rot_char (r mod 26) c = rot_char r c.
Proof.
  unfold rot_char. destruct (is_letter c); [|reflexivity].
  now rewrite Zminus_mod_idemp_r.
Qed.

Lemma map_ext_str f g t :
  (forall c, f c = g c) -> PyStr.map f t = PyStr.map g t.
Proof.
  intros Hfg. induction t as [|c t IH]; simpl; [reflexivity|].
  now rewrite Hfg, IH.
Qed.

Lemma map_map_str f g t :
  PyStr.map g (PyStr.map f t) = PyStr.map (fun c => g (f c)) t.
Proof.
  induction t as [|c t IH]; simpl; [reflexivity|]. now rewrite IH.
Qed.

Lemma map_id_str f t : (forall c, f c = c) -> PyStr.map f t = t.
Proof.
  intros Hf. induction t as [|c t IH]; simpl; [reflexivity|].
  now rewrite Hf, IH.
Qed.

Lemma rotate_add a b t : rotate b (rotate a t) = rotate ((a + b) mod 26) t.
Proof.
  unfold rotate. rewrite map_map_str. apply map_ext_str.
  intros c. apply rot_char_add.
Qed.

Lemma rotate_0 t : rotate 0 t = t.
Proof. unfold rotate. apply map_id_str, rot_char_0. Qed.

Lemma rotate_mod r t : rotate (r mod 26) t = rotate r t.
Proof. unfold rotate. apply map_ext_str. intros c. apply rot_char_mod. Qed.

(** ** The rotated alphabet and the table built from it *)

Lemma forallb_below (p : nat -> bool) n k :
  forallb p (seq 0 n) = true -> (k < n)%nat -> p k = true.
Proof.
  intros Hall Hk. rewrite forallb_forall in Hall. apply Hall.
  apply in_seq. lia.
Qed.

Lemma cypher_rotate_right_checked :
  forallb (fun k => String.eqb (cypher (Z.of_nat k))
                      (rotate_right (Z.to_nat (Z.of_nat k mod 26)) DIRECT))
          (seq 0 53) = true.
Proof. vm_compute. reflexivity. Qed.

Lemma cypher_upto_52 k :
  0 <= k <= 52 -> cypher k = rotate_right (Z.to_nat (k mod 26)) DIRECT.
Proof.
  intros Hk. rewrite <- (Z2Nat.id k) by lia.
  apply String.eqb_eq.
  apply (forallb_below _ 53 (Z.to_nat k) cypher_rotate_right_checked). lia.
Qed.

Lemma cypher_from_52 k : 52 <= k -> cypher k = DIRECT.
Proof.
  intros Hk. unfold cypher, PyStr.slice_from, PyStr.slice_to.
  replace (PyStr.slice_index (PyStr.len DIRECT) (26 - k)) with 0.
  - reflexivity.
  - unfold PyStr.slice_index. change (PyStr.len DIRECT) with 26.
    destruct (Z.ltb_spec (26 - k) 0); lia.
Qed.

Lemma table_agrees_checked : forallb table_agrees (seq 0 53) = true.
Proof. vm_compute. reflexivity. Qed.

Lemma translate_char_rot k c :
  0 <= k <= 52 -> PyStr.translate_char (switch k) c = rot_char k c.
Proof.
  intros Hk. rewrite <- (rot_char_mod k c), <- (Z2Nat.id k) by lia.
  pose proof (forallb_below _ 53 (Z.to_nat k) table_agrees_checked) as Hc.
  unfold table_agrees in Hc. rewrite forallb_forall in Hc.
  apply Ascii.eqb_eq, Hc; [lia | apply code_points_complete].
Qed.

Lemma substitute_rotate k t : 0 <= k <= 52 -> substitute k t = rotate k t.
Proof.
  intros Hk. unfold substitute, PyStr.translate, rotate.
  apply map_ext_str. intros c. now apply translate_char_rot.
Qed.

Lemma substitute_from_52 k t : 52 <= k -> substitute k t = t.
Proof.
  intros Hk. unfold substitute, switch. rewrite (cypher_from_52 k Hk).
  rewrite <- (cypher_from_52 52) by lia.
  change (substitute 52 t = t).
  rewrite substitute_rotate, <- rotate_mod by lia. apply rotate_0.
Qed.





Lemma mod26_range z : 0 <= z mod 26 <= 52.
Proof. pose proof (Z.mod_pos_bound z 26). lia. Qed.

(** C4 (amended).  For a counter value [s] from 0 to 52 the alphabet the
    searcher builds, [DIRECT[26-s:]+DIRECT[:26-s]], is the alphabet rotated
    right by [s mod 26] positions: its last [s mod 26] letters are moved to
    the front.  Beyond 52 both slice bounds are clamped and the result is
    the alphabet itself, not rotated. *)
Theorem cypher_rotation (shift : Z) :
  0 <= shift ->
  cypher shift =
    if shift <=? 52 then rotate_right (Z.to_nat (shift mod 26)) DIRECT
    else DIRECT.
Proof.
  intros Hs. destruct (Z.leb_spec shift 52).
  - apply cypher_upto_52. lia.
  - apply cypher_from_52. lia.
Qed.

Lemma cypher_rotation_witness :
  0 <= 27 /\ cypher 27 = "zabcdefghijklmnopqrstuvwxy".
Proof.
  split; [lia|]. rewrite (cypher_rotation 27); [reflexivity | lia].
Defined.

(** C4, as stated, fails at the counter value 53: the alphabet rotated
    right by [53 mod 26 = 1] starts with [z], the one the searcher builds
    is the alphabet itself. *)
Lemma cypher_53_not_rotated :
  0 <= 53
  /\ cypher 53 = "abcdefghijklmnopqrstuvwxyz"
  /\ rotate_right (Z.to_nat (53 mod 26)) DIRECT = "zabcdefghijklmnopqrstuvwxy"
  /\ cypher 53 <> rotate_right (Z.to_nat (53 mod 26)) DIRECT.
Proof.
  split; [lia|]. split; [reflexivity|]. split; [reflexivity|].
  intros Heq. vm_compute in Heq. discriminate Heq.
Qed.

(** C5 (amended).  For a shift [k] from 0 to 52, applying the
    substitution of shift [k] to a text and then the substitution of
    shift [(26-k) mod 26] gives the text back, character for character:
    punctuation, capitals and all.  From 0 to 52 the table is the
    rotation by [k mod 26]; this covers the shifts 0 to 25 of the data
    model. *)
Theorem substitute_round_trip (T : string) (k : Z) :
  0 <= k <= 52 ->
  substitute ((26 - k) mod 26) (substitute k T) = T.
Proof.
  intros Hk.
  rewrite (substitute_rotate k) by exact Hk.
  rewrite substitute_rotate by apply mod26_range.
  rewrite rotate_add, Zplus_mod_idemp_r.
  replace (k + (26 - k)) with (1 * 26) by lia.
  rewrite Z.mod_mul by lia. apply rotate_0.
Qed.

Lemma substitute_round_trip_witness :
  0 <= 3 <= 52
  /\ substitute ((26 - 3) mod 26) (substitute 3 "Now is better, than *never*!")
     = "Now is better, than *never*!".
Proof.
  split; [lia|]. apply (substitute_round_trip _ 3). lia.
Defined.

(** C5, as stated, fails at the shift 53, a value the counter takes on
    the 54th pass: the table of 53 leaves [a] as it is, [(26-53) mod 26]
    is 25, and the table of 25 turns [a] into [b]. *)
Lemma round_trip_fails_at_53 :
  substitute 53 "a" = "a"
  /\ (26 - 53) mod 26 = 25
  /\ substitute ((26 - 53) mod 26) (substitute 53 "a") = "b"
  /\ substitute ((26 - 53) mod 26) (substitute 53 "a") <> "a".
Proof.
  split; [vm_compute; reflexivity|]. split; [reflexivity|].
  split; [vm_compute; reflexivity|].
  intros Heq. vm_compute in Heq. discriminate Heq.
Qed.




(** ** The tokenizer *)

Lemma append_cons c (a b : string) : String c a +:+ b = String c (a +:+ b).
Proof. reflexivity. Qed.

Lemma append_nil_l (b : string) : "" +:+ b = b.
Proof. reflexivity. Qed.

Lemma append_nil_r t : t +:+ "" = t.
Proof.
  induction t as [|c t IH]; [reflexivity|]. now rewrite append_cons, IH.
Qed.

Lemma append_assoc (a b c : string) : (a +:+ b) +:+ c = a +:+ (b +:+ c).
Proof.
  induction a as [|x a IH]; [reflexivity|]. now rewrite !append_cons, IH.
Qed.

Lemma all_chars_app p a b :
  all_chars p (a +:+ b) = all_chars p a && all_chars p b.
Proof.
  induction a as [|x a IH]; [reflexivity|].
  rewrite append_cons. simpl. now rewrite IH, andb_assoc.
Qed.

Lemma joined_app ws1 ws2 : joined (ws1 ++ ws2) = joined ws1 +:+ joined ws2.
Proof.
  induction ws1 as [|w ws1 IH]; simpl; [reflexivity|].
  now rewrite IH, append_assoc.
Qed.

(** Whatever word is being collected, the scan emits only non-empty
    words that hold no separator. *)
Lemma split_scan_words t : forall cur,
  all_chars nonspace cur = true ->
  Forall (fun w => w <> "" /\ all_chars nonspace w = true)
         (PyStr.split_scan cur t).
Proof.
  induction t as [|c t IH]; intros cur Hcur; simpl.
  - destruct (String.eqb_spec cur ""); constructor; [split|]; auto.
  - destruct (PyStr.isspace c) eqn:Hc.
    + destruct (String.eqb_spec cur "").
      * now apply IH.
      * constructor; [split; assumption | now apply IH].
    + apply IH. rewrite all_chars_app, Hcur. simpl.
      unfold nonspace. now rewrite Hc.
Qed.

(** Gluing the emitted words gives the collected word followed by the
    characters of the rest that are not separators. *)
Lemma split_scan_joined t : forall cur,
  joined (PyStr.split_scan cur t) = cur +:+ visible t.
Proof.
  induction t as [|c t IH]; intros cur; simpl.
  - destruct (String.eqb_spec cur "") as [->|]; simpl; [reflexivity|].
    now rewrite !append_nil_r.
  - destruct (PyStr.isspace c) eqn:Hc.
    + destruct (String.eqb_spec cur "") as [->|]; simpl; rewrite IH;
        reflexivity.
    + rewrite IH, append_assoc. reflexivity.
Qed.

Lemma split_on_nonempty sep t : PyStr.split_on sep t <> [].
Proof.
  destruct t as [|c t]; simpl; [discriminate|].
  destruct (Ascii.eqb c sep); [discriminate|].
  destruct (PyStr.split_on sep t); discriminate.
Qed.

Lemma split_on_app sep a b :
  PyStr.split_on sep (a +:+ String sep b)
  = PyStr.split_on sep a ++ PyStr.split_on sep b.
Proof.
  induction a as [|c a IH]; [rewrite append_nil_l | rewrite append_cons];
    simpl.
  - now rewrite Ascii.eqb_refl.
  - destruct (Ascii.eqb c sep); [now rewrite IH|].
    rewrite IH. pose proof (split_on_nonempty sep a) as Hne.
    destruct (PyStr.split_on sep a); [contradiction | reflexivity].
Qed.

Lemma split_on_absent sep t :
  all_chars (fun c => negb (Ascii.eqb c sep)) t = true ->
  PyStr.split_on sep t = [t].
Proof.
  induction t as [|c t IH]; simpl; [reflexivity|].
  intros [Hc Ht]%andb_true_iff. apply negb_true_iff in Hc.
  now rewrite Hc, IH.
Qed.

Lemma lines_visible t :
  joined (List.map visible (PyStr.split_on newline t)) = visible t.
Proof.
  induction t as [|c t IH]; simpl; [reflexivity|].
  destruct (Ascii.eqb_spec c newline) as [->|Hc]; simpl; [exact IH|].
  pose proof (split_on_nonempty newline t) as Hne.
  destruct (PyStr.split_on newline t) as [|piece rest];
    [contradiction|].
  simpl in *. rewrite <- IH.
  destruct (PyStr.isspace c); reflexivity.
Qed.

Lemma joined_concat_split ls :
  joined (concat (List.map PyStr.split ls)) = joined (List.map visible ls).
Proof.
  induction ls as [|l ls IH]; simpl; [reflexivity|].
  rewrite joined_app, IH. unfold PyStr.split.
  now rewrite split_scan_joined.
Qed.

(** C7.  [get_words] of the two lines [a b] and [c] is [a], [b], [c];
    of the empty text it is empty; a word it yields is never empty and
    never holds a separator, however many spaces or line feeds run
    together; and the words come out in the order of the text: glued
    together they are the text without its separators, the words of a
    first line come before the words of what follows the line feed, and
    within one line they are the words of [split]. *)
Theorem get_words_tokens :
  get_words two_lines = ["a"; "b"; "c"]
  /\ get_words "" = []
  /\ (forall T : string,
        Forall (fun w => w <> "" /\ all_chars nonspace w = true)
               (get_words T))
  /\ (forall T : string, joined (get_words T) = visible T)
  /\ (forall L T : string,
        get_words (L +:+ String newline T) = get_words L ++ get_words T)
  /\ (forall L : string,
        all_chars not_newline L = true -> get_words L = PyStr.split L).
Proof.
  split; [reflexivity|]. split; [reflexivity|].
  split; [|split; [|split]].
  - intros T. unfold get_words. apply Forall_concat, Forall_forall.
    intros ws Hin. apply list_elem_of_In, in_map_iff in Hin as (l & <- & _).
    now apply split_scan_words.
  - intros T. unfold get_words. rewrite joined_concat_split.
    apply lines_visible.
  - intros L T. unfold get_words.
    rewrite split_on_app, List.map_app. apply concat_app.
  - intros L Hl. unfold get_words. rewrite split_on_absent by exact Hl.
    simpl. apply app_nil_r.
Qed.

Lemma get_words_tokens_witness :
  all_chars not_newline "now  is" = true
  /\ get_words "now  is" = PyStr.split "now  is".
Proof.
  split; [reflexivity|].
  apply (proj2 (proj2 (proj2 (proj2 (proj2 get_words_tokens))))).
  reflexivity.
Defined.

(** ** Counting matches *)

Lemma count_matches_from dictionary words : forall m,
  fold_left (count_word dictionary) words m
  = m + Z.of_nat (length (List.filter
                            (fun w => truthy (dict_get dictionary w)) words)).
Proof.
  induction words as [|w words IH]; intros m; simpl; [lia|].
  rewrite IH. unfold count_word.
  destruct (truthy (dict_get dictionary w)); simpl length; lia.
Qed.

Lemma count_matches_filter dictionary words :
  count_matches dictionary words
  = Z.of_nat (length (List.filter
                        (fun w => truthy (dict_get dictionary w)) words)).
Proof. unfold count_matches. now rewrite count_matches_from. Qed.

Lemma count_matches_le dictionary words :
  0 <= count_matches dictionary words <= Z.of_nat (length words).
Proof.
  rewrite count_matches_filter.
  pose proof (List.filter_length_le
                (fun w => truthy (dict_get dictionary w)) words). lia.
Qed.

Lemma count_matches_single dictionary w :
  count_matches dictionary [w]
  = if truthy (dict_get dictionary w) then 1 else 0.
Proof. reflexivity. Qed.

(** C10.  A word whose key is in the dictionary with a value that tests
    false (the empty string, 0, [False] and [None] all do) leaves the
    match counter as it was, wherever the word stands among the tokens;
    a word raises the counter exactly when [dictionary.get] gives a value
    that tests true, so the count is the number of such words, not the
    number of words that are keys. *)
Theorem falsy_entry_not_counted
    (dictionary : gmap string pyval) (word : string) (v : pyval) :
  dictionary !! word = Some v ->
  truthy v = false ->
  (forall matches : Z, count_word dictionary matches word = matches)
  /\ (forall before after : list string,
        count_matches dictionary (before ++ word :: after)
        = count_matches dictionary (before ++ after))
  /\ Forall (fun v' => truthy v' = false)
            [PyString ""; PyInt 0; PyBool false; PyNone]
  /\ (forall (w : string) (matches : Z),
        count_word dictionary matches w = matches + 1
        <-> exists v', dictionary !! w = Some v' /\ truthy v' = true)
  /\ (forall words : list string,
        count_matches dictionary words
        = Z.of_nat (length (List.filter
                     (fun w => truthy (dict_get dictionary w)) words))).
Proof.
  intros Hv Hf.
  assert (Hw : truthy (dict_get dictionary word) = false).
  { unfold dict_get. now rewrite Hv. }
  split; [|split; [|split; [|split]]].
  - intros m. unfold count_word. now rewrite Hw.
  - intros before after. rewrite !count_matches_filter.
    rewrite !List.filter_app. simpl. now rewrite Hw.
  - repeat constructor.
  - intros w m. unfold count_word, dict_get.
    destruct (dictionary !! w) as [v'|] eqn:Hl; simpl.
    + destruct (truthy v') eqn:Ht.
      * split; [intros _; exists v'; auto | reflexivity].
      * split; [lia | intros (v'' & [= <-] & Ht'); congruence].
    + split; [lia | intros (v'' & [=] & _)].
  - apply count_matches_filter.
Qed.

Lemma falsy_entry_not_counted_witness :
  ({[ "the" := PyString "" ]} : gmap string pyval) !! "the"
    = Some (PyString "")
  /\ truthy (PyString "") = false
  /\ count_word {[ "the" := PyString "" ]} 7 "the" = 7.
Proof.
  split; [reflexivity|]. split; [reflexivity|].
  apply (falsy_entry_not_counted {[ "the" := PyString "" ]} "the"
           (PyString "")); reflexivity.
Defined.

(** ** The search loop *)

Section Loop.

Variable dictionary : gmap string pyval.

Lemma passes_body n st :
  passes dictionary n (body dictionary st)
  = body dictionary (passes dictionary n st).
Proof. induction n as [|n IH]; simpl; [reflexivity | now rewrite IH]. Qed.

Lemma shift_passes n st :
  shift (passes dictionary n st) = shift st + Z.of_nat n.
Proof.
  induction n as [|n IH]; [simpl; lia|].
  change (passes dictionary (S n) st)
    with (body dictionary (passes dictionary n st)).
  unfold body at 1. cbn [shift]. lia.
Qed.

(** Each pass substitutes in the text the pass before left. *)
Lemma s_passes_step n s0 :
  s (passes dictionary (S n) (init s0))
  = substitute (Z.of_nat n) (s (passes dictionary n (init s0))).
Proof.
  change (passes dictionary (S n) (init s0))
    with (body dictionary (passes dictionary n (init s0))).
  unfold body at 1. cbn [s]. now rewrite shift_passes.
Qed.

Lemma matches_passes_step n s0 :
  matches (passes dictionary (S n) (init s0))
  = count_matches dictionary
      (get_words (s (passes dictionary (S n) (init s0)))).
Proof. reflexivity. Qed.

Lemma triangular_succ n : triangular (n + 1) = triangular n + n.
Proof.
  unfold triangular.
  replace ((n + 1) * (n + 1 - 1)) with (n * (n - 1) + n * 2) by lia.
  now rewrite Z.div_add by lia.
Qed.

(** Up to 53 passes the net rotation is the triangular number of the
    number of passes. *)
Lemma s_passes_upto_53 n s0 :
  (n <= 53)%nat ->
  s (passes dictionary n (init s0))
  = rotate (triangular (Z.of_nat n) mod 26) (PyStr.lower s0).
Proof.
  induction n as [|n IH]; intros Hn.
  - simpl. symmetry. apply rotate_0.
  - rewrite s_passes_step, IH by lia.
    rewrite substitute_rotate by lia.
    rewrite rotate_add, Zplus_mod_idemp_l, Nat2Z.inj_succ.
    unfold Z.succ. now rewrite triangular_succ.
Qed.

(** From 53 passes on the text is the lowercased original and stays so. *)
Lemma s_passes_from_53 n s0 :
  (53 <= n)%nat -> s (passes dictionary n (init s0)) = PyStr.lower s0.
Proof.
  induction 1 as [|n Hn IH].
  - rewrite s_passes_upto_53 by lia. apply rotate_0.
  - rewrite s_passes_step, IH. apply substitute_from_52. lia.
Qed.

(** At every moment the working text is a rotation of the lowercased
    original, by the residue of a triangular number. *)
Lemma s_passes_residue n s0 :
  exists k : nat,
    (k <= 53)%nat
    /\ s (passes dictionary n (init s0))
       = rotate (triangular (Z.of_nat k) mod 26) (PyStr.lower s0).
Proof.
  destruct (le_lt_dec n 53) as [Hn|Hn].
  - exists n. split; [exact Hn | now apply s_passes_upto_53].
  - exists 0%nat. split; [lia|].
    rewrite s_passes_from_53 by lia. symmetry. apply rotate_0.
Qed.

Variable threshold : Z.

(** The loop goes on for ever when the condition holds after every
    number of passes. *)
Lemma while_runs_out st :
  (forall n, matches (passes dictionary n st) < threshold) ->
  forall fuel, while dictionary threshold fuel st = None.
Proof.
  intros Hall fuel. revert st Hall.
  induction fuel as [|fuel IH]; intros st Hall; simpl;
    pose proof (Hall 0%nat) as H0; simpl in H0;
    destruct (Z.ltb_spec (matches st) threshold); try lia; [reflexivity|].
  apply IH. intros n. rewrite passes_body. apply (Hall (S n)).
Qed.

(** The loop stops after [n] passes when the condition fails there for
    the first time, and any fuel from [n] on shows it. *)
Lemma while_stops n : forall st,
  (forall k, (k < n)%nat -> matches (passes dictionary k st) < threshold) ->
  threshold <= matches (passes dictionary n st) ->
  forall fuel, (n <= fuel)%nat ->
    while dictionary threshold fuel st = Some (passes dictionary n st).
Proof.
  induction n as [|n IH]; intros st Hlt Hge fuel Hfuel.
  - simpl in Hge. destruct fuel; simpl;
      destruct (Z.ltb_spec (matches st) threshold); try lia; reflexivity.
  - destruct fuel as [|fuel]; [lia|]. simpl.
    pose proof (Hlt 0%nat ltac:(lia)) as H0. simpl in H0.
    destruct (Z.ltb_spec (matches st) threshold); [|lia].
    rewrite <- passes_body. apply IH; [| now rewrite passes_body | lia].
    intros k Hk. rewrite passes_body. apply (Hlt (S k)). lia.
Qed.

(** A loop that ends has made some number of passes, the condition
    holding before each of them and failing after the last. *)
Lemma while_result fuel : forall st st',
  while dictionary threshold fuel st = Some st' ->
  exists n, (n <= fuel)%nat
    /\ st' = passes dictionary n st
    /\ threshold <= matches st'
    /\ (forall k, (k < n)%nat ->
          matches (passes dictionary k st) < threshold).
Proof.
  induction fuel as [|fuel IH]; intros st st'; simpl;
    destruct (Z.ltb_spec (matches st) threshold) as [Hlt|Hge];
    try discriminate.
  - intros [= <-]. exists 0%nat. repeat split; [lia | exact Hge | lia].
  - intros Hw. apply IH in Hw as (n & Hn & -> & Hge & Hbefore).
    exists (S n).
    split; [lia|]. split; [apply passes_body|]. split; [exact Hge|].
    intros [|k] Hk; [exact Hlt|].
    change (passes dictionary (S k) st)
      with (body dictionary (passes dictionary k st)).
    rewrite <- passes_body. apply Hbefore. lia.
  - intros [= <-]. exists 0%nat. repeat split; [lia | exact Hge | lia].
Qed.

End Loop.

Lemma forall_below_26 (p : Z -> bool) :
  forallb (fun k => p (Z.of_nat k)) (seq 0 26) = true ->
  forall r, 0 <= r < 26 -> p r = true.
Proof.
  intros Hall r Hr. rewrite <- (Z2Nat.id r) by lia.
  apply (forallb_below (fun k => p (Z.of_nat k)) 26); [exact Hall | lia].
Qed.

Lemma decypher_runs_out dictionary s0 :
  (forall n, matches (passes dictionary n (init s0)) < THRESHOLD) ->
  forall fuel, decypher dictionary s0 fuel = None.
Proof.
  intros Hall fuel. unfold decypher, search.
  now rewrite while_runs_out.
Qed.

(** No rotation of the text reaching the threshold, no number of passes
    does. *)
Lemma matches_below dictionary s0 bound :
  0 < bound ->
  (forall r, 0 <= r < 26 ->
     count_matches dictionary (get_words (rotate r (PyStr.lower s0))) < bound) ->
  forall n, matches (passes dictionary n (init s0)) < bound.
Proof.
  intros Hpos Hrot [|n]; [exact Hpos|].
  rewrite matches_passes_step.
  destruct (s_passes_residue dictionary (S n) s0) as (k & _ & ->).
  apply Hrot, Z.mod_pos_bound. lia.
Qed.

(** What a run that ends prints: the number of passes less one, and the
    lowercased ciphertext rotated by the triangular number of the number
    of passes. *)
Lemma decypher_result dictionary s0 fuel k txt :
  decypher dictionary s0 fuel = Some (k, txt) ->
  exists n : nat,
    (1 <= n <= 53)%nat
    /\ k = Z.of_nat n - 1
    /\ txt = rotate (triangular (Z.of_nat n) mod 26) (PyStr.lower s0).
Proof.
  unfold decypher, search. intros Hrun.
  destruct (while dictionary THRESHOLD fuel (init s0)) as [st|] eqn:Hw;
    [|discriminate Hrun].
  apply while_result in Hw as (n & _ & -> & Hge & Hbefore).
  injection Hrun as <- <-. rewrite shift_passes.
  assert (Hn : (1 <= n <= 53)%nat).
  { destruct n as [|n]; [simpl in Hge; unfold THRESHOLD in Hge; lia|].
    split; [lia|]. destruct (le_lt_dec (S n) 53) as [|Hbig]; [assumption|].
    pose proof (Hbefore 1%nat ltac:(lia)) as H1.
    rewrite matches_passes_step in H1, Hge.
    rewrite s_passes_from_53 in Hge by lia.
    rewrite s_passes_upto_53, rotate_0 in H1 by lia. lia. }
  exists n. split; [exact Hn|]. split; [simpl; lia|].
  apply s_passes_upto_53. lia.
Qed.

(** C1 fails on the code.  On the 25 tokens [d] with [a] in the
    dictionary the search stops after three passes and prints the shift
    2, while the text it prints is the lowercased ciphertext under the
    net rotation 3, and under no other net rotation from 0 to 25. *)
Theorem reported_shift_differs_from_net_rotation :
  decypher dict_a cipher_d 3 = Some (2, plain_a)
  /\ plain_a = rotate 3 (PyStr.lower cipher_d)
  /\ (forall r, 0 <= r < 26 ->
        rotate r (PyStr.lower cipher_d) = plain_a -> r = 3).
Proof.
  split; [vm_compute; reflexivity|]. split; [vm_compute; reflexivity|].
  intros r Hr Heq.
  assert (Hd : rot_char r "d" = "a"%char).
  { change (PyStr.lower cipher_d)
      with (String "d" (PyStr.drop 1 (PyStr.lower cipher_d))) in Heq.
    change plain_a with (String "a" (PyStr.drop 1 plain_a)) in Heq.
    unfold rotate in Heq. simpl PyStr.map in Heq.
    now injection Heq. }
  unfold rot_char in Hd. change (is_letter "d") with true in Hd.
  change (PyStr.ord "d") with 100 in Hd. cbv iota in Hd.
  apply (f_equal PyStr.ord) in Hd.
  pose proof (Z.mod_pos_bound (100 - 97 - r) 26 ltac:(lia)) as Hb.
  rewrite ord_chr in Hd by lia. change (PyStr.ord "a") with 97 in Hd.
  assert (Hm : (100 - 97 - r) mod 26 = 0) by lia.
  apply Z.mod_divide in Hm; [|lia]. destruct Hm as [q Hq]. lia.
Qed.

(** C2 (amended).  Every pass substitutes in the working text the pass
    before left, never in the original; so after any number of completed
    passes the working text is the lowercased original under one net
    rotation between 0 and 25.  The first pass, with the counter at 0,
    substitutes nothing: after one completed pass the text is the
    lowercased original, not rotated. *)
Theorem passes_are_cumulative
    (dictionary : gmap string pyval) (s0 : string) (n : nat) :
  s (passes dictionary (S n) (init s0))
    = substitute (Z.of_nat n) (s (passes dictionary n (init s0)))
  /\ (exists r, 0 <= r < 26
        /\ s (passes dictionary n (init s0)) = rotate r (PyStr.lower s0))
  /\ s (passes dictionary 0 (init s0)) = PyStr.lower s0
  /\ s (passes dictionary 1 (init s0)) = PyStr.lower s0.
Proof.
  split; [apply s_passes_step|]. split; [|split].
  - destruct (s_passes_residue dictionary n s0) as (k & _ & Hk).
    exists (triangular (Z.of_nat k) mod 26).
    split; [apply Z.mod_pos_bound; lia | exact Hk].
  - reflexivity.
  - rewrite s_passes_upto_53 by lia. apply rotate_0.
Qed.

(** C2, as stated, fails: after one pass the text [a] is still [a], not
    [a] rotated by one position; after four passes it is [a] rotated by
    six positions, neither by four nor by three. *)
Lemma first_pass_does_not_rotate :
  s (passes dict_a 1 (init "a")) = "a"
  /\ rotate 1 (PyStr.lower "a") = "z"
  /\ s (passes dict_a 1 (init "a")) <> rotate 1 (PyStr.lower "a")
  /\ s (passes dict_a 4 (init "a")) = "u"
  /\ rotate 4 (PyStr.lower "a") = "w"
  /\ rotate 3 (PyStr.lower "a") = "x".
Proof.
  repeat split; try (vm_compute; reflexivity).
  intros Heq. vm_compute in Heq. discriminate Heq.
Qed.

(** C3 (amended).  When no rotation of the lowercased ciphertext, by 0
    to 25 positions, has 25 tokens that match, the loop never ends: no
    amount of fuel brings it to its [print].  The working texts do not
    come back every 26 passes; from the 53rd pass on the working text is
    the lowercased original and no longer changes. *)
Theorem search_never_ends (dictionary : gmap string pyval) (s0 : string) :
  (forall r, 0 <= r < 26 ->
     count_matches dictionary (get_words (rotate r (PyStr.lower s0)))
     < THRESHOLD) ->
  (forall fuel, decypher dictionary s0 fuel = None)
  /\ (forall n, (53 <= n)%nat ->
        s (passes dictionary n (init s0)) = PyStr.lower s0).
Proof.
  intros Hrot. split.
  - apply decypher_runs_out, matches_below; [reflexivity | exact Hrot].
  - intros n Hn. now apply s_passes_from_53.
Qed.

Lemma search_never_ends_witness :
  (forall r, 0 <= r < 26 ->
     count_matches dict_a (get_words (rotate r (PyStr.lower "Zen")))
     < THRESHOLD)
  /\ decypher dict_a "Zen" 100 = None.
Proof.
  assert (Hrot : forall r, 0 <= r < 26 ->
            count_matches dict_a (get_words (rotate r (PyStr.lower "Zen")))
            < THRESHOLD).
  { intros r Hr. apply Z.ltb_lt.
    apply (forall_below_26
             (fun r => count_matches dict_a
                         (get_words (rotate r (PyStr.lower "Zen")))
                       <? THRESHOLD)); [vm_compute; reflexivity | exact Hr]. }
  split; [exact Hrot|].
  apply (search_never_ends dict_a "Zen" Hrot).
Defined.

(** C3, as stated, fails in its second half.  The one-letter text [a]
    never reaches 25 matches, yet its working text after 27 passes is
    [n] while after one pass it is [a]: 26 passes later the text is
    another one. *)
Lemma texts_differ_26_passes_apart :
  decypher dict_a "a" 60 = None
  /\ s (passes dict_a 1 (init "a")) = "a"
  /\ s (passes dict_a (1 + 26) (init "a")) = "n"
  /\ s (passes dict_a (1 + 26) (init "a")) <> s (passes dict_a 1 (init "a")).
Proof.
  repeat split; try (vm_compute; reflexivity).
  intros Heq. vm_compute in Heq. discriminate Heq.
Qed.

(** C9 (amended).  Up to 53 completed passes the working text is the
    lowercased original rotated by the triangular number [n(n-1)/2]
    modulo 26, the pass whose counter value is [n] rotating by [n]; the
    first pass substitutes nothing; and whatever the number of passes, the
    net rotation is the residue modulo 26 of a triangular number.  From
    53 passes on the text is the lowercased original. *)
Theorem passes_triangular
    (dictionary : gmap string pyval) (s0 : string) (n : nat) :
  (n <= 53)%nat ->
  s (passes dictionary n (init s0))
    = rotate (triangular (Z.of_nat n) mod 26) (PyStr.lower s0)
  /\ shift (passes dictionary n (init s0)) = Z.of_nat n
  /\ ((n < 53)%nat ->
        s (passes dictionary (S n) (init s0))
        = rotate (Z.of_nat n) (s (passes dictionary n (init s0))))
  /\ s (passes dictionary 1 (init s0)) = PyStr.lower s0
  /\ (forall m : nat, exists k : nat,
        s (passes dictionary m (init s0))
        = rotate (triangular (Z.of_nat k) mod 26) (PyStr.lower s0))
  /\ (forall m : nat, (53 <= m)%nat ->
        s (passes dictionary m (init s0)) = PyStr.lower s0).
Proof.
  intros Hn. split; [now apply s_passes_upto_53|].
  split; [now rewrite shift_passes|]. split; [|split; [|split]].
  - intros Hlt. rewrite s_passes_step. apply substitute_rotate. lia.
  - rewrite s_passes_upto_53 by lia. apply rotate_0.
  - intros m. destruct (s_passes_residue dictionary m s0) as (k & _ & Hk).
    now exists k.
  - intros m Hm. now apply s_passes_from_53.
Qed.

Lemma passes_triangular_witness :
  (14 <= 53)%nat
  /\ s (passes dict_beautiful 14 (init "Ornhgvshy"))
     = rotate (triangular 14 mod 26) (PyStr.lower "Ornhgvshy").
Proof.
  split; [lia|].
  apply (passes_triangular dict_beautiful "Ornhgvshy" 14). lia.
Defined.

(** C9, as stated, fails at 54 passes: the triangular number of 54 is
    1431, which is 1 modulo 26, but the text [a] is [a] again, not [z]. *)
Lemma pass_54_not_triangular :
  triangular 54 mod 26 = 1
  /\ s (passes dict_a 54 (init "a")) = "a"
  /\ rotate (triangular 54 mod 26) (PyStr.lower "a") = "z"
  /\ s (passes dict_a 54 (init "a"))
     <> rotate (triangular 54 mod 26) (PyStr.lower "a").
Proof.
  repeat split; try (vm_compute; reflexivity).
  intros Heq. vm_compute in Heq. discriminate Heq.
Qed.

(** ** The one-word ciphertext *)

Lemma ornhgvshy_one_token_checked :
  forallb (fun k => match get_words (rotate (Z.of_nat k) "ornhgvshy") with
                    | [w] => String.eqb w (rotate (Z.of_nat k) "ornhgvshy")
                    | _ => false
                    end)
          (seq 0 26) = true.
Proof. vm_compute. reflexivity. Qed.

Lemma ornhgvshy_one_token r :
  0 <= r < 26 ->
  get_words (rotate r "ornhgvshy") = [rotate r "ornhgvshy"].
Proof.
  intros Hr.
  pose proof (forall_below_26
                (fun r => match get_words (rotate r "ornhgvshy") with
                          | [w] => String.eqb w (rotate r "ornhgvshy")
                          | _ => false
                          end)
                ornhgvshy_one_token_checked r Hr) as Hc.
  cbv beta in Hc.
  destruct (get_words (rotate r "ornhgvshy")) as [|w [|w' ws]];
    try discriminate Hc.
  apply String.eqb_eq in Hc. now rewrite Hc.
Qed.

Lemma ornhgvshy_matches dictionary n :
  matches (passes dictionary n (init "Ornhgvshy")) <= 1.
Proof.
  destruct n as [|n]; [simpl; lia|].
  rewrite matches_passes_step.
  destruct (s_passes_residue dictionary (S n) "Ornhgvshy") as (k & _ & ->).
  change (PyStr.lower "Ornhgvshy") with "ornhgvshy".
  rewrite ornhgvshy_one_token by (apply Z.mod_pos_bound; lia).
  rewrite count_matches_single.
  destruct (truthy _); lia.
Qed.

Lemma ornhgvshy_runs_out dictionary fuel :
  decypher dictionary "Ornhgvshy" fuel = None.
Proof.
  apply decypher_runs_out. intros n.
  pose proof (ornhgvshy_matches dictionary n). unfold THRESHOLD. lia.
Qed.

Lemma triangular_not_13 n :
  (n < 13)%nat -> triangular (Z.of_nat (S n)) mod 26 <> 13.
Proof.
  intros Hn.
  do 13 (destruct n as [|n]; [vm_compute; discriminate|]). lia.
Qed.

(** C8 (amended).  On the ciphertext [Ornhgvshy], with [beautiful] in the
    dictionary, the loop of the notebook never ends: one token cannot
    make 25 matches.  Its 14th pass, the counter being 13, does leave the
    working text [beautiful] with one match; a loop whose threshold is 1
    stops there and reports the shift 13 and the text [beautiful],
    provided no other rotation of the ciphertext is a dictionary word. *)
Theorem ornhgvshy_search (dictionary : gmap string pyval) :
  truthy (dict_get dictionary "beautiful") = true ->
  (forall fuel, decypher dictionary "Ornhgvshy" fuel = None)
  /\ s (passes dictionary 14 (init "Ornhgvshy")) = "beautiful"
  /\ matches (passes dictionary 14 (init "Ornhgvshy")) = 1
  /\ report (passes dictionary 14 (init "Ornhgvshy")) = (13, "beautiful")
  /\ ((forall r, 0 <= r < 26 -> r <> 13 ->
         truthy (dict_get dictionary (rotate r "ornhgvshy")) = false) ->
      forall fuel, (14 <= fuel)%nat ->
        search dictionary 1 fuel "Ornhgvshy" = Some (13, "beautiful")).
Proof.
  intros Hb.
  assert (Hs : s (passes dictionary 14 (init "Ornhgvshy")) = "beautiful").
  { rewrite s_passes_upto_53 by lia. vm_compute. reflexivity. }
  assert (Hm : matches (passes dictionary 14 (init "Ornhgvshy")) = 1).
  { rewrite matches_passes_step, Hs.
    change (get_words "beautiful") with ["beautiful"].
    now rewrite count_matches_single, Hb. }
  assert (Hr : report (passes dictionary 14 (init "Ornhgvshy"))
               = (13, "beautiful")).
  { unfold report. rewrite Hs, shift_passes. reflexivity. }
  split; [apply ornhgvshy_runs_out|]. repeat (split; [assumption|]).
  intros Hother fuel Hfuel. unfold search.
  rewrite (while_stops dictionary 1 14); [| | lia | lia].
  { change (Some (report (passes dictionary 14 (init "Ornhgvshy")))
            = Some (13, "beautiful")).
    now rewrite Hr. }
  intros [|k] Hk; [simpl; lia|].
  rewrite matches_passes_step, s_passes_upto_53 by lia.
  change (PyStr.lower "Ornhgvshy") with "ornhgvshy".
  rewrite ornhgvshy_one_token by (apply Z.mod_pos_bound; lia).
  rewrite count_matches_single, Hother; [lia | apply Z.mod_pos_bound; lia |].
  apply triangular_not_13. lia.
Qed.

Lemma ornhgvshy_search_witness :
  truthy (dict_get dict_beautiful "beautiful") = true
  /\ s (passes dict_beautiful 14 (init "Ornhgvshy")) = "beautiful".
Proof.
  split; [reflexivity|].
  apply (ornhgvshy_search dict_beautiful). reflexivity.
Defined.

(** C8, as stated, fails: with [beautiful] in the dictionary no amount of
    fuel makes the notebook's loop report the shift 13 and the text
    [beautiful] for the ciphertext [Ornhgvshy]. *)
Lemma ornhgvshy_not_reported :
  truthy (dict_get dict_beautiful "beautiful") = true
  /\ ~ (exists fuel,
          decypher dict_beautiful "Ornhgvshy" fuel = Some (13, "beautiful")).
Proof.
  split; [reflexivity|]. intros [fuel Hf].
  rewrite ornhgvshy_runs_out in Hf. discriminate Hf.
Qed.

(** ** The table of every counter value *)

Lemma cypher_upto_0 k : k <= 0 -> cypher k = DIRECT.
Proof.
  intros Hk. unfold cypher, PyStr.slice_from, PyStr.slice_to.
  replace (PyStr.slice_index (PyStr.len DIRECT) (26 - k)) with 26.
  - reflexivity.
  - unfold PyStr.slice_index. change (PyStr.len DIRECT) with 26.
    destruct (Z.ltb_spec (26 - k) 0); lia.
Qed.

Lemma substitute_upto_0 k t : k <= 0 -> substitute k t = t.
Proof.
  intros Hk. unfold substitute, switch. rewrite (cypher_upto_0 k Hk).
  rewrite <- (cypher_upto_0 0) by lia.
  change (substitute 0 t = t).
  rewrite substitute_rotate by lia. apply rotate_0.
Qed.

Lemma net_shift_range k : 0 <= net_shift k < 26.
Proof.
  unfold net_shift. destruct ((0 <=? k) && (k <=? 52)); [|lia].
  apply Z.mod_pos_bound. lia.
Qed.

Lemma substitute_net_shift k t : substitute k t = rotate (net_shift k) t.
Proof.
  unfold net_shift.
  destruct (Z.leb_spec 0 k) as [H0|H0]; destruct (Z.leb_spec k 52) as [H1|H1];
    simpl.
  - rewrite rotate_mod. apply substitute_rotate. lia.
  - rewrite rotate_0. apply substitute_from_52. lia.
  - rewrite rotate_0. apply substitute_upto_0. lia.
  - lia.
Qed.

Lemma length_map f t : String.length (PyStr.map f t) = String.length t.
Proof. induction t as [|c t IH]; simpl; [reflexivity | now rewrite IH]. Qed.

(** X1.  Whatever integer the counter holds, the table built from it
    rotates the letters by [net_shift]: by the counter modulo 26 from 0 to
    52, and not at all for a negative counter or one above 52.  The text
    keeps its length, and one more substitution, with the shift that
    completes [net_shift] to 26, gives the text back. *)
Theorem substitute_every_counter (k : Z) (t : string) :
  substitute k t = rotate (net_shift k) t
  /\ 0 <= net_shift k < 26
  /\ String.length (substitute k t) = String.length t
  /\ substitute ((26 - net_shift k) mod 26) (substitute k t) = t.
Proof.
  split; [apply substitute_net_shift|]. split; [apply net_shift_range|].
  split; [apply length_map|].
  pose proof (net_shift_range k) as Hr.
  rewrite (substitute_net_shift k).
  rewrite substitute_rotate by apply mod26_range.
  rewrite rotate_add, Zplus_mod_idemp_r.
  replace (net_shift k + (26 - net_shift k)) with (1 * 26) by lia.
  rewrite Z.mod_mul by lia. apply rotate_0.
Qed.

(** ** A character map that keeps the separators *)

Section KeepsSeparators.

Variable f : ascii -> ascii.
Hypothesis f_space : forall c, PyStr.isspace (f c) = PyStr.isspace c.
Hypothesis f_newline : forall c, Ascii.eqb (f c) newline = Ascii.eqb c newline.

Lemma map_app_str a b :
  PyStr.map f (a +:+ b) = PyStr.map f a +:+ PyStr.map f b.
Proof.
  induction a as [|c a IH]; [reflexivity|].
  rewrite append_cons. simpl. now rewrite IH.
Qed.

Lemma map_empty_str t : String.eqb (PyStr.map f t) "" = String.eqb t "".
Proof. destruct t; reflexivity. Qed.

Lemma split_scan_map t : forall cur,
  PyStr.split_scan (PyStr.map f cur) (PyStr.map f t)
  = List.map (PyStr.map f) (PyStr.split_scan cur t).
Proof.
  induction t as [|c t IH]; intros cur; simpl.
  - rewrite map_empty_str. destruct (String.eqb cur ""); reflexivity.
  - rewrite f_space, map_empty_str. destruct (PyStr.isspace c).
    + destruct (String.eqb cur ""); simpl; now rewrite <- (IH "").
    + rewrite <- IH, map_app_str. reflexivity.
Qed.

Lemma split_on_map t :
  PyStr.split_on newline (PyStr.map f t)
  = List.map (PyStr.map f) (PyStr.split_on newline t).
Proof.
  induction t as [|c t IH]; simpl; [reflexivity|].
  rewrite f_newline, IH. destruct (Ascii.eqb c newline); [reflexivity|].
  pose proof (split_on_nonempty newline t) as Hne.
  destruct (PyStr.split_on newline t); [contradiction | reflexivity].
Qed.

Lemma get_words_map t :
  get_words (PyStr.map f t) = List.map (PyStr.map f) (get_words t).
Proof.
  unfold get_words. rewrite split_on_map.
  induction (PyStr.split_on newline t) as [|l ls IH]; simpl; [reflexivity|].
  rewrite List.map_app, IH. f_equal. apply (split_scan_map l "").
Qed.

End KeepsSeparators.

Lemma letter_not_space c : is_letter c = true -> PyStr.isspace c = false.
Proof.
  unfold is_letter, PyStr.isspace. intros Hc.
  apply andb_true_iff in Hc as [H1 H2].
  apply Z.leb_le in H1. apply Z.leb_le in H2.
  repeat match goal with
         | |- context [?a <=? ?b] => destruct (Z.leb_spec a b); try lia
         | |- context [?a =? ?b] => destruct (Z.eqb_spec a b); try lia
         end; reflexivity.
Qed.

Lemma letter_not_newline c :
  is_letter c = true -> Ascii.eqb c newline = false.
Proof.
  intros Hc. apply Ascii.eqb_neq. intros ->. discriminate Hc.
Qed.

Lemma rot_char_space r c : PyStr.isspace (rot_char r c) = PyStr.isspace c.
Proof.
  destruct (is_letter c) eqn:Hc.
  - rewrite !letter_not_space; [reflexivity | exact Hc |].
    now rewrite rot_char_letter.
  - unfold rot_char. now rewrite Hc.
Qed.

Lemma rot_char_newline r c :
  Ascii.eqb (rot_char r c) newline = Ascii.eqb c newline.
Proof.
  destruct (is_letter c) eqn:Hc.
  - rewrite !letter_not_newline; [reflexivity | exact Hc |].
    now rewrite rot_char_letter.
  - unfold rot_char. now rewrite Hc.
Qed.

Lemma get_words_rotate r t :
  get_words (rotate r t) = List.map (rotate r) (get_words t).
Proof.
  apply get_words_map; [apply rot_char_space | apply rot_char_newline].
Qed.

(** X2.  A substitution never moves a word boundary: for every counter
    value the words of the substituted text are the substituted words of
    the text, one for one and in the same order, so the text has as many
    tokens after a pass as before. *)
Theorem substitute_keeps_words (k : Z) (t : string) :
  get_words (substitute k t) = List.map (substitute k) (get_words t)
  /\ length (get_words (substitute k t)) = length (get_words t).
Proof.
  assert (Hw : get_words (substitute k t)
               = List.map (substitute k) (get_words t)).
  { rewrite substitute_net_shift, get_words_rotate.
    apply List.map_ext. intros w. symmetry. apply substitute_net_shift. }
  split; [exact Hw|]. rewrite Hw. apply List.length_map.
Qed.

(** ** Lowercasing *)

Lemma lower_char_checked :
  forallb (fun c =>
             Ascii.eqb (PyStr.lower_char (PyStr.lower_char c))
                       (PyStr.lower_char c)
             && Bool.eqb (PyStr.isspace (PyStr.lower_char c)) (PyStr.isspace c)
             && Bool.eqb (Ascii.eqb (PyStr.lower_char c) newline)
                         (Ascii.eqb c newline)
             && negb ((65 <=? PyStr.ord (PyStr.lower_char c))
                      && (PyStr.ord (PyStr.lower_char c) <=? 90)))
          code_points = true.
Proof. vm_compute. reflexivity. Qed.

Lemma lower_char_facts c :
  PyStr.lower_char (PyStr.lower_char c) = PyStr.lower_char c
  /\ PyStr.isspace (PyStr.lower_char c) = PyStr.isspace c
  /\ Ascii.eqb (PyStr.lower_char c) newline = Ascii.eqb c newline
  /\ (65 <=? PyStr.ord (PyStr.lower_char c))
     && (PyStr.ord (PyStr.lower_char c) <=? 90) = false.
Proof.
  pose proof lower_char_checked as Hall. rewrite forallb_forall in Hall.
  specialize (Hall c (code_points_complete c)).
  apply andb_true_iff in Hall as [Hall H4].
  apply andb_true_iff in Hall as [Hall H3].
  apply andb_true_iff in Hall as [H1 H2].
  apply Ascii.eqb_eq in H1. apply Bool.eqb_prop in H2, H3.
  apply negb_true_iff in H4. auto.
Qed.

Lemma lower_char_letter c : is_letter c = true -> PyStr.lower_char c = c.
Proof.
  unfold is_letter, PyStr.lower_char. intros Hc.
  apply andb_true_iff in Hc as [H1 H2].
  apply Z.leb_le in H1. apply Z.leb_le in H2.
  repeat match goal with
         | |- context [?a <=? ?b] => destruct (Z.leb_spec a b); try lia
         | |- context [?a =? ?b] => destruct (Z.eqb_spec a b); try lia
         end; reflexivity.
Qed.

Lemma lower_idempotent t : PyStr.lower (PyStr.lower t) = PyStr.lower t.
Proof.
  unfold PyStr.lower. rewrite map_map_str. apply map_ext_str.
  intros c. apply lower_char_facts.
Qed.

Lemma lower_rotate r t :
  PyStr.lower (rotate r (PyStr.lower t)) = rotate r (PyStr.lower t).
Proof.
  unfold PyStr.lower, rotate. rewrite !map_map_str. apply map_ext_str.
  intros c. destruct (is_letter (PyStr.lower_char c)) eqn:Hc.
  - apply lower_char_letter. now rewrite rot_char_letter.
  - unfold rot_char. rewrite Hc. apply lower_char_facts.
Qed.

Lemma get_words_lower t :
  get_words (PyStr.lower t) = List.map PyStr.lower (get_words t).
Proof.
  apply get_words_map; intros c; apply lower_char_facts.
Qed.

Lemma map_fixes {A} (g : A -> A) (l : list A) (x : A) :
  List.map g l = l -> In x l -> g x = x.
Proof.
  induction l as [|y l IH]; simpl; [contradiction|].
  intros [= Hy Hl] [<-|Hin]; [exact Hy | now apply IH].
Qed.

Lemma s_passes_lower dictionary n t :
  PyStr.lower (s (passes dictionary n (init t)))
  = s (passes dictionary n (init t)).
Proof.
  destruct (s_passes_residue dictionary n t) as (k & _ & ->).
  apply lower_rotate.
Qed.

(** X3.  The text is lowercased once and stays lowercase: whatever the
    number of passes, every token the loop looks up in the dictionary is
    its own lowercase, so a dictionary key with a capital letter is never
    matched. *)
Theorem tokens_are_lowercase
    (dictionary : gmap string pyval) (t : string) (n : nat) (w : string) :
  In w (get_words (s (passes dictionary n (init t)))) ->
  PyStr.lower w = w
  /\ all_chars (fun c => negb ((65 <=? PyStr.ord c) && (PyStr.ord c <=? 90)))
               w = true.
Proof.
  intros Hin.
  assert (Hw : PyStr.lower w = w).
  { apply (map_fixes PyStr.lower _ w) in Hin; [exact Hin|].
    rewrite <- get_words_lower. now rewrite s_passes_lower. }
  split; [exact Hw|]. rewrite <- Hw. clear. unfold PyStr.lower.
  induction w as [|c w IH]; simpl; [reflexivity|].
  rewrite IH, andb_true_r. apply negb_true_iff, lower_char_facts.
Qed.

Lemma tokens_are_lowercase_witness :
  In "beautiful" (get_words (s (passes dict_a 14 (init "Ornhgvshy VF"))))
  /\ PyStr.lower "beautiful" = "beautiful".
Proof.
  split; [vm_compute; auto|].
  apply (tokens_are_lowercase dict_a "Ornhgvshy VF" 14 "beautiful").
  vm_compute. auto.
Defined.

(** X4.  Lowercasing twice is lowercasing once, and lowercasing moves no
    word boundary: the words of the lowercased text are the lowercased
    words of the text, one for one and in the same order. *)
Theorem lower_keeps_words (t : string) :
  PyStr.lower (PyStr.lower t) = PyStr.lower t
  /\ get_words (PyStr.lower t) = List.map PyStr.lower (get_words t)
  /\ length (get_words (PyStr.lower t)) = length (get_words t).
Proof.
  split; [apply lower_idempotent|].
  assert (Hw : get_words (PyStr.lower t)
               = List.map PyStr.lower (get_words t))
    by apply get_words_lower.
  split; [exact Hw|]. rewrite Hw. apply List.length_map.
Qed.

(** ** Lines and words *)

(** Cutting the text into lines first changes nothing for [split]: the
    line feed is a separator like the others. *)
Lemma split_scan_lines t : forall cur,
  match PyStr.split_on newline t with
  | piece :: rest =>
      PyStr.split_scan cur piece ++ concat (List.map PyStr.split rest)
      = PyStr.split_scan cur t
  | [] => False
  end.
Proof.
  induction t as [|c t IH]; intros cur; simpl.
  - apply app_nil_r.
  - destruct (Ascii.eqb_spec c newline) as [->|Hc].
    + specialize (IH "").
      destruct (PyStr.split_on newline t) as [|piece rest]; [contradiction|].
      simpl. unfold PyStr.split at 1. rewrite IH.
      change (PyStr.isspace newline) with true. cbv iota.
      destruct (String.eqb cur ""); reflexivity.
    + pose proof (IH "") as IH0.
      pose proof (IH (cur +:+ String c "")) as IH1.
      destruct (PyStr.split_on newline t) as [|piece rest]; [contradiction|].
      simpl. destruct (PyStr.isspace c).
      * destruct (String.eqb cur ""); simpl; now rewrite <- IH0.
      * exact IH1.
Qed.

Lemma get_words_split t : get_words t = PyStr.split t.
Proof.
  unfold get_words, PyStr.split.
  pose proof (split_scan_lines t "") as H.
  destruct (PyStr.split_on newline t) as [|piece rest]; [contradiction|].
  exact H.
Qed.

Lemma split_scan_word w : forall cur t,
  all_chars nonspace w = true ->
  PyStr.split_scan cur (w +:+ t) = PyStr.split_scan (cur +:+ w) t.
Proof.
  induction w as [|c w IH]; intros cur t Hw.
  - now rewrite append_nil_l, append_nil_r.
  - simpl in Hw. apply andb_true_iff in Hw as [Hc Hw].
    unfold nonspace in Hc. apply negb_true_iff in Hc.
    rewrite append_cons. simpl. rewrite Hc, IH by exact Hw.
    now rewrite append_assoc.
Qed.

(** X5.  For every text [get_words] yields exactly the words of [split]
    applied to the whole text, the cut into lines adding and removing
    none; and a word it yields is a text of one word, itself. *)
Theorem get_words_is_split (t : string) :
  get_words t = PyStr.split t
  /\ (forall w : string, In w (get_words t) -> get_words w = [w]).
Proof.
  split; [apply get_words_split|]. intros w Hin.
  pose proof (split_scan_words t "" eq_refl) as Hall.
  rewrite Forall_forall in Hall.
  rewrite get_words_split in Hin. unfold PyStr.split in Hin.
  destruct (Hall w (proj2 (list_elem_of_In _ _) Hin)) as [Hne Hw].
  rewrite get_words_split. unfold PyStr.split.
  rewrite <- (append_nil_r w) at 1.
  rewrite split_scan_word, append_nil_l by exact Hw. simpl.
  destruct (String.eqb_spec w ""); [contradiction | reflexivity].
Qed.

Lemma get_words_is_split_witness :
  get_words "" = PyStr.split ""
  /\ In "is" (get_words zen_printed) /\ get_words "is" = ["is"].
Proof.
  assert (Hin : In "is" (get_words zen_printed))
    by (vm_compute; repeat first [left; reflexivity | right]).
  split; [apply (proj1 (get_words_is_split ""))|].
  split; [exact Hin|].
  apply (proj2 (get_words_is_split zen_printed) "is" Hin).
Defined.

(** ** How long the search can take *)

Lemma residues_checked :
  forallb (fun n =>
             existsb (fun r => triangular (Z.of_nat n) mod 26 =? r)
                     tried_shifts
             && ((n =? 0)%nat
                 || existsb (fun m => triangular (Z.of_nat m) mod 26
                                      =? triangular (Z.of_nat n) mod 26)
                            (seq 1 20)))
          (seq 0 54) = true.
Proof. vm_compute. reflexivity. Qed.

Lemma residue_tried n :
  (n <= 53)%nat -> In (triangular (Z.of_nat n) mod 26) tried_shifts.
Proof.
  intros Hn.
  pose proof (forallb_below _ 54 n residues_checked ltac:(lia)) as Hc.
  cbv beta in Hc. apply andb_true_iff in Hc as [Hc _].
  apply existsb_exists in Hc as (r & Hin & Hr).
  apply Z.eqb_eq in Hr. now rewrite Hr.
Qed.

Lemma residue_early n :
  (1 <= n <= 53)%nat ->
  exists m, (1 <= m <= 20)%nat
    /\ triangular (Z.of_nat m) mod 26 = triangular (Z.of_nat n) mod 26.
Proof.
  intros Hn.
  pose proof (forallb_below _ 54 n residues_checked ltac:(lia)) as Hc.
  cbv beta in Hc. apply andb_true_iff in Hc as [_ Hc].
  apply orb_true_iff in Hc as [Hc|Hc]; [apply Nat.eqb_eq in Hc; lia|].
  apply existsb_exists in Hc as (m & Hin & Hm).
  apply in_seq in Hin. apply Z.eqb_eq in Hm. exists m. split; [lia|exact Hm].
Qed.

Lemma s_passes_tried dictionary n s0 :
  exists r, In r tried_shifts
    /\ s (passes dictionary n (init s0)) = rotate r (PyStr.lower s0).
Proof.
  destruct (s_passes_residue dictionary n s0) as (k & Hk & ->).
  eexists. split; [apply (residue_tried k Hk) | reflexivity].
Qed.

(** The text of any pass was already the text of one of the first 20. *)
Lemma s_passes_early dictionary n s0 :
  (1 <= n)%nat ->
  exists m, (1 <= m <= 20)%nat /\ (m <= n)%nat
    /\ s (passes dictionary m (init s0)) = s (passes dictionary n (init s0)).
Proof.
  intros Hn. destruct (le_lt_dec n 20) as [Hsmall|Hbig].
  - exists n. split; [lia|]. split; [lia | reflexivity].
  - destruct (le_lt_dec n 53) as [Hmid|Hlarge].
    + destruct (residue_early n ltac:(lia)) as (m & Hm & Heq).
      exists m. split; [exact Hm|]. split; [lia|].
      rewrite !s_passes_upto_53 by lia. now rewrite Heq.
    + exists 1%nat. split; [lia|]. split; [lia|].
      rewrite (s_passes_from_53 dictionary n) by lia.
      rewrite s_passes_upto_53 by lia. apply rotate_0.
Qed.

Lemma matches_passes_text dictionary m n s0 :
  (1 <= m)%nat -> (1 <= n)%nat ->
  s (passes dictionary m (init s0)) = s (passes dictionary n (init s0)) ->
  matches (passes dictionary m (init s0))
  = matches (passes dictionary n (init s0)).
Proof.
  destruct m as [|m]; [lia|]. destruct n as [|n]; [lia|].
  intros _ _ Heq. rewrite !matches_passes_step. now rewrite Heq.
Qed.

(** A loop that ends has made between 1 and 20 passes. *)
Lemma while_ends_early dictionary fuel s0 st :
  while dictionary THRESHOLD fuel (init s0) = Some st ->
  exists n, (1 <= n <= 20)%nat
    /\ st = passes dictionary n (init s0)
    /\ THRESHOLD <= matches st
    /\ (forall k, (k < n)%nat ->
          matches (passes dictionary k (init s0)) < THRESHOLD).
Proof.
  intros Hw. apply while_result in Hw as (n & _ & -> & Hge & Hbefore).
  exists n. split; [|auto].
  destruct n as [|n]; [simpl in Hge; unfold THRESHOLD in Hge; lia|].
  split; [lia|].
  destruct (s_passes_early dictionary (S n) s0 ltac:(lia))
    as (m & Hm & Hle & Heq).
  destruct (Nat.eq_dec m (S n)) as [->|Hne]; [lia|].
  pose proof (Hbefore m ltac:(lia)) as Hlt.
  rewrite (matches_passes_text dictionary m (S n) s0) in Hlt by (lia || auto).
  lia.
Qed.

(** X6.  A run that ends has made at most 20 passes: the shift it prints
    is between 0 and 19, the text it prints is the lowercased ciphertext
    rotated by the triangular number of the passes made, one of the 14 net
    shifts the loop ever tries, and that text has at least 25 matching
    tokens. *)
Theorem decypher_ends_early
    (dictionary : gmap string pyval) (s0 : string) (fuel : nat)
    (k : Z) (txt : string) :
  decypher dictionary s0 fuel = Some (k, txt) ->
  0 <= k <= 19
  /\ txt = rotate (triangular (k + 1) mod 26) (PyStr.lower s0)
  /\ In (triangular (k + 1) mod 26) tried_shifts
  /\ THRESHOLD <= count_matches dictionary (get_words txt).
Proof.
  unfold decypher, search. intros Hrun.
  destruct (while dictionary THRESHOLD fuel (init s0)) as [st|] eqn:Hw;
    [|discriminate Hrun].
  apply while_ends_early in Hw as (n & Hn & -> & Hge & _).
  injection Hrun as <- <-. rewrite shift_passes. cbn [shift init].
  replace (0 + Z.of_nat n - 1 + 1) with (Z.of_nat n) by lia.
  split; [lia|]. split; [apply s_passes_upto_53; lia|].
  split; [apply residue_tried; lia|].
  destruct n as [|n]; [lia|]. now rewrite matches_passes_step in Hge.
Qed.

Lemma decypher_ends_early_witness :
  decypher dict_a cipher_d 5 = Some (2, plain_a) /\ 0 <= 2 <= 19.
Proof.
  assert (Hrun : decypher dict_a cipher_d 5 = Some (2, plain_a))
    by (vm_compute; reflexivity).
  split; [exact Hrun|].
  apply (decypher_ends_early dict_a cipher_d 5 2 plain_a Hrun).
Defined.

(** X7.  Twenty passes decide the search: when the loop has not ended
    after 20 passes it never ends. *)
Theorem twenty_passes_decide
    (dictionary : gmap string pyval) (s0 : string) :
  decypher dictionary s0 20 = None ->
  forall fuel, decypher dictionary s0 fuel = None.
Proof.
  unfold decypher, search. intros H20 fuel.
  destruct (while dictionary THRESHOLD fuel (init s0)) as [st|] eqn:Hw;
    [|reflexivity].
  apply while_ends_early in Hw as (n & Hn & -> & Hge & Hbefore).
  rewrite (while_stops dictionary THRESHOLD n (init s0) Hbefore Hge 20) in H20
    by lia.
  discriminate H20.
Qed.

Lemma twenty_passes_decide_witness :
  decypher dict_a cipher_e 20 = None /\ decypher dict_a cipher_e 1000 = None.
Proof.
  assert (H20 : decypher dict_a cipher_e 20 = None)
    by (vm_compute; reflexivity).
  split; [exact H20|].
  apply (twenty_passes_decide dict_a cipher_e H20).
Defined.

(** ** Texts the search cannot decode *)

(** X8.  A ciphertext with fewer than 25 tokens is never decoded: a
    pass keeps the number of tokens and no token counts twice, so the
    match count stays below the threshold and the loop never ends.  The
    empty text is such a ciphertext. *)
Theorem few_tokens_never_end
    (dictionary : gmap string pyval) (s0 : string) :
  Z.of_nat (length (get_words s0)) < THRESHOLD ->
  (forall n, matches (passes dictionary n (init s0))
             <= Z.of_nat (length (get_words s0)))
  /\ (forall fuel, decypher dictionary s0 fuel = None).
Proof.
  intros Hfew.
  assert (Hle : forall n, matches (passes dictionary n (init s0))
                          <= Z.of_nat (length (get_words s0))).
  { intros [|n]; [simpl; lia|].
    rewrite matches_passes_step.
    destruct (s_passes_residue dictionary (S n) s0) as (k & _ & ->).
    pose proof (count_matches_le dictionary
                  (get_words (rotate (triangular (Z.of_nat k) mod 26)
                                     (PyStr.lower s0)))) as Hc.
    rewrite get_words_rotate, get_words_lower, !List.length_map in Hc.
    rewrite get_words_rotate, get_words_lower. lia. }
  split; [exact Hle|].
  apply decypher_runs_out. intros n. specialize (Hle n). lia.
Qed.

Lemma few_tokens_never_end_witness :
  Z.of_nat (length (get_words "")) < THRESHOLD
  /\ decypher dict_a "" 30 = None.
Proof.
  split; [reflexivity|].
  apply (few_tokens_never_end dict_a ""). reflexivity.
Defined.

(** X9.  The loop tries 14 of the 26 net shifts.  When none of these 14
    rotations of the lowercased ciphertext has 25 matching tokens the
    loop never ends, whatever the other 12 rotations would give: a text
    that needs the net shift 4 is not found. *)
Theorem untried_shifts_never_found
    (dictionary : gmap string pyval) (s0 : string) :
  (forall r, In r tried_shifts ->
     count_matches dictionary (get_words (rotate r (PyStr.lower s0)))
     < THRESHOLD) ->
  forall fuel, decypher dictionary s0 fuel = None.
Proof.
  intros Htried. apply decypher_runs_out.
  intros [|n]; [reflexivity|].
  rewrite matches_passes_step.
  destruct (s_passes_tried dictionary (S n) s0) as (r & Hin & ->).
  now apply Htried.
Qed.

Lemma untried_shifts_never_found_witness :
  THRESHOLD <= count_matches dict_a (get_words (rotate 4 (PyStr.lower cipher_e)))
  /\ (forall r, In r tried_shifts ->
        count_matches dict_a (get_words (rotate r (PyStr.lower cipher_e)))
        < THRESHOLD)
  /\ decypher dict_a cipher_e 200 = None.
Proof.
  assert (Htried : forall r, In r tried_shifts ->
            count_matches dict_a (get_words (rotate r (PyStr.lower cipher_e)))
            < THRESHOLD).
  { intros r Hin. unfold tried_shifts in Hin. simpl in Hin.
    repeat (destruct Hin as [<-|Hin]; [vm_compute; reflexivity|]).
    contradiction. }
  split; [vm_compute; discriminate|]. split; [exact Htried|].
  apply (untried_shifts_never_found dict_a cipher_e Htried).
Defined.

(** ** The first pass that reaches the threshold *)

(** X10.  The search stops at the first pass whose text has 25 matching
    tokens.  When the rotation by the [n]-th triangular number is the
    first of the rotations tried to reach the threshold, every run long
    enough prints [n - 1] and that rotation of the lowercased
    ciphertext; for the ciphertext of the notebook, the 14th pass and the
    text shown under [Shift: 13]. *)
Theorem decypher_first_hit
    (dictionary : gmap string pyval) (s0 : string) (n : nat) :
  (1 <= n <= 53)%nat ->
  (forall m, (1 <= m < n)%nat ->
     count_matches dictionary
       (get_words (rotate (triangular (Z.of_nat m) mod 26) (PyStr.lower s0)))
     < THRESHOLD) ->
  THRESHOLD
  <= count_matches dictionary
       (get_words (rotate (triangular (Z.of_nat n) mod 26) (PyStr.lower s0))) ->
  forall fuel, (n <= fuel)%nat ->
    decypher dictionary s0 fuel
    = Some (Z.of_nat n - 1,
            rotate (triangular (Z.of_nat n) mod 26) (PyStr.lower s0)).
Proof.
  intros Hn Hbefore Hhit fuel Hfuel. unfold decypher, search.
  rewrite (while_stops dictionary THRESHOLD n); [| | | exact Hfuel].
  - change (Some (report (passes dictionary n (init s0))) = Some
              (Z.of_nat n - 1,
               rotate (triangular (Z.of_nat n) mod 26) (PyStr.lower s0))).
    unfold report. rewrite shift_passes, s_passes_upto_53 by lia.
    cbn [shift init]. repeat f_equal; lia.
  - intros [|k] Hk; [reflexivity|].
    rewrite matches_passes_step, s_passes_upto_53 by lia.
    apply Hbefore. lia.
  - destruct n as [|n]; [lia|].
    rewrite matches_passes_step, s_passes_upto_53 by lia. exact Hhit.
Qed.

Lemma decypher_first_hit_witness :
  (1 <= 14 <= 53)%nat
  /\ decypher dict_zen zen_cyphered 14 = Some (13, zen_printed).
Proof.
  split; [lia|].
  apply (decypher_first_hit dict_zen zen_cyphered 14); [lia | | | lia].
  - intros m Hm.
    do 14 (destruct m as [|m]; [try lia; vm_compute; reflexivity|]). lia.
  - vm_compute. discriminate.
Defined.

(** ** Sorting the dictionary *)

Lemma leb_ltb a b : String.leb a b = true -> a <> b -> String.ltb a b = true.
Proof.
  unfold String.leb, String.ltb. intros Hle Hne.
  destruct (String.compare a b) eqn:Hc; try reflexivity; try discriminate.
  apply String.compare_eq_iff in Hc. contradiction.
Qed.

Lemma not_leb_ltb a b : String.leb a b = false -> String.ltb b a = true.
Proof.
  unfold String.leb, String.ltb. rewrite (String.compare_antisym b a).
  destruct (String.compare a b); simpl; congruence.
Qed.

Lemma insert_item_perm x l : insert_item x l ≡ₚ x :: l.
Proof.
  induction l as [|y l IH]; simpl; [reflexivity|].
  destruct (item_leb x y); [reflexivity|].
  rewrite IH. apply Permutation_swap.
Qed.

Lemma sorted_items_perm d : sorted_items d ≡ₚ d.
Proof.
  induction d as [|x d IH]; simpl; [reflexivity|].
  now rewrite insert_item_perm, IH.
Qed.

Lemma insert_item_ascending x l :
  keys_ascending l = true -> x.1 ∉ l.*1 ->
  keys_ascending (insert_item x l) = true.
Proof.
  induction l as [|y l IH]; intros Hasc Hx; [reflexivity|].
  apply not_elem_of_cons in Hx as [Hxy Hx].
  change (insert_item x (y :: l))
    with (if item_leb x y then x :: y :: l else y :: insert_item x l).
  unfold item_leb. destruct (String.leb x.1 y.1) eqn:Hle.
  - change (String.ltb x.1 y.1 && keys_ascending (y :: l) = true).
    now rewrite leb_ltb, Hasc.
  - apply not_leb_ltb in Hle.
    destruct l as [|z l]; [simpl; now rewrite Hle|].
    change (String.ltb y.1 z.1 && keys_ascending (z :: l) = true) in Hasc.
    apply andb_true_iff in Hasc as [Hyz Hasc].
    specialize (IH Hasc Hx).
    change (insert_item x (z :: l))
      with (if item_leb x z then x :: z :: l else z :: insert_item x l)
      in IH |- *.
    destruct (item_leb x z).
    + change (String.ltb y.1 x.1 && keys_ascending (x :: z :: l) = true).
      now rewrite Hle, IH.
    + change (String.ltb y.1 z.1
              && keys_ascending (z :: insert_item x l) = true).
      now rewrite Hyz, IH.
Qed.

Lemma sorted_items_ascending d :
  NoDup (d.*1) -> keys_ascending (sorted_items d) = true.
Proof.
  induction d as [|x d IH]; intros Hnd; [reflexivity|].
  rewrite fmap_cons in Hnd. apply NoDup_cons in Hnd as [Hx Hnd].
  simpl. apply insert_item_ascending; [now apply IH|].
  now rewrite sorted_items_perm.
Qed.

Lemma od_set_new k v d : k ∉ d.*1 -> od_set k v d = d ++ [(k, v)].
Proof.
  induction d as [|[k' v'] d IH]; intros Hk; simpl; [reflexivity|].
  rewrite fmap_cons in Hk. apply not_elem_of_cons in Hk as [Hne Hk].
  destruct (String.eqb_spec k' k) as [->|_]; [contradiction|].
  now rewrite IH.
Qed.

Lemma OrderedDict_from pairs : forall acc,
  NoDup ((acc ++ pairs).*1) ->
  fold_left (fun d kv => od_set kv.1 kv.2 d) pairs acc = acc ++ pairs.
Proof.
  induction pairs as [|[k v] pairs IH]; intros acc Hnd; simpl.
  - now rewrite app_nil_r.
  - rewrite od_set_new.
    + rewrite IH; rewrite <- app_assoc; [reflexivity | exact Hnd].
    + rewrite fmap_app, fmap_cons in Hnd.
      apply NoDup_app in Hnd as (_ & Hdisj & _).
      intros Hin. apply (Hdisj k Hin). simpl. left.
Qed.

Lemma OrderedDict_distinct pairs : NoDup (pairs.*1) -> OrderedDict pairs = pairs.
Proof. intros Hnd. unfold OrderedDict. now rewrite OrderedDict_from. Qed.

Lemma sort_dictionary_sorted d :
  NoDup (d.*1) -> sort_dictionary d = sorted_items d.
Proof.
  intros Hnd. unfold sort_dictionary. apply OrderedDict_distinct.
  now rewrite sorted_items_perm.
Qed.

Lemma lookup_table_get d w : dict_get (lookup_table d) w = items_get d w.
Proof.
  unfold dict_get, lookup_table.
  induction d as [|[k v] d IH]; simpl; [reflexivity|].
  rewrite lookup_insert.
  destruct (String.eqb_spec k w) as [->|Hne].
  - now rewrite decide_True.
  - now rewrite decide_False.
Qed.

(** X11.  Sorting the dictionary changes no lookup.  For a dictionary
    with distinct keys, [OrderedDict(sorted(dictionary.items()))] holds
    the same items with the keys in strictly ascending order, [get] gives
    for every word what it gave before, and the search prints the same
    with the sorted dictionary as with the one loaded. *)
Theorem sort_dictionary_same_lookups (d : list (string * pyval)) :
  NoDup (d.*1) ->
  sort_dictionary d ≡ₚ d
  /\ keys_ascending (sort_dictionary d) = true
  /\ (forall word, items_get (sort_dictionary d) word = items_get d word)
  /\ (forall words,
        count_matches (lookup_table (sort_dictionary d)) words
        = count_matches (lookup_table d) words)
  /\ (forall s0 fuel,
        decypher (lookup_table (sort_dictionary d)) s0 fuel
        = decypher (lookup_table d) s0 fuel).
Proof.
  intros Hnd. rewrite sort_dictionary_sorted by exact Hnd.
  assert (Hmap : lookup_table (sorted_items d) = lookup_table d).
  { unfold lookup_table. apply list_to_map_proper.
    - now rewrite sorted_items_perm.
    - apply sorted_items_perm. }
  split; [apply sorted_items_perm|].
  split; [now apply sorted_items_ascending|].
  split; [|split].
  - intros word. now rewrite <- !lookup_table_get, Hmap.
  - intros words. now rewrite Hmap.
  - intros s0 fuel. now rewrite Hmap.
Qed.

Lemma sort_dictionary_same_lookups_witness :
  NoDup (items_sample.*1)
  /\ sort_dictionary items_sample
     = [("a", PyInt 1); ("python", PyInt 0); ("zen", PyInt 1)]
  /\ keys_ascending (sort_dictionary items_sample) = true.
Proof.
  assert (Hnd : NoDup (items_sample.*1)).
  { apply (bool_decide_unpack _). vm_compute. exact I. }
  split; [exact Hnd|]. split; [reflexivity|].
  apply (sort_dictionary_same_lookups items_sample Hnd).
Defined.

(** ** What the match count counts *)

Lemma filter_length_perm {A} (p : A -> bool) (l1 l2 : list A) :
  l1 ≡ₚ l2 -> length (List.filter p l1) = length (List.filter p l2).
Proof.
  induction 1 as [|x l1 l2 _ IH|x y l|l1 l2 l3 _ IH1 _ IH2]; simpl.
  - reflexivity.
  - destruct (p x); simpl; now rewrite IH.
  - destruct (p x), (p y); reflexivity.
  - now rewrite IH1.
Qed.

Lemma count_matches_cons dictionary w ws :
  count_matches dictionary (w :: ws)
  = (if truthy (dict_get dictionary w) then 1 else 0)
    + count_matches dictionary ws.
Proof.
  rewrite !count_matches_filter. simpl.
  destruct (truthy (dict_get dictionary w)); simpl length; lia.
Qed.

(** X12.  The match count is a count of tokens, not of distinct words:
    for any two token lists it adds up over their concatenation, it lies
    between 0 and the number of tokens, it reaches the number of tokens
    exactly when [get] gives a true value for every one of them, and it
    does not depend on the order of the tokens. *)
Theorem count_matches_tokens
    (dictionary : gmap string pyval) (ws1 ws2 : list string) :
  count_matches dictionary (ws1 ++ ws2)
  = count_matches dictionary ws1 + count_matches dictionary ws2
  /\ 0 <= count_matches dictionary ws1 <= Z.of_nat (length ws1)
  /\ (count_matches dictionary ws1 = Z.of_nat (length ws1)
      <-> Forall (fun w => truthy (dict_get dictionary w) = true) ws1)
  /\ (ws1 ≡ₚ ws2 ->
      count_matches dictionary ws1 = count_matches dictionary ws2).
Proof.
  split; [|split; [|split]].
  - rewrite !count_matches_filter, List.filter_app, List.length_app. lia.
  - apply count_matches_le.
  - induction ws1 as [|w ws IH].
    + split; [constructor | reflexivity].
    + pose proof (count_matches_le dictionary ws) as Hle.
      rewrite count_matches_cons, Forall_cons. simpl length.
      destruct (truthy (dict_get dictionary w)).
      * rewrite <- IH. split; [intros Heq; split; [reflexivity | lia]|].
        intros [_ Heq]. lia.
      * split; [lia | intros [Hw _]; discriminate Hw].
  - intros Hperm. rewrite !count_matches_filter. f_equal.
    now apply filter_length_perm.
Qed.

Lemma count_matches_tokens_witness :
  count_matches dict_zen (["is"; "zen"] ++ ["than"; "is"])
  = count_matches dict_zen ["is"; "zen"] + count_matches dict_zen ["than"; "is"]
  /\ ["is"; "zen"; "is"] ≡ₚ ["zen"; "is"; "is"]
  /\ count_matches dict_zen ["is"; "zen"; "is"]
     = count_matches dict_zen ["zen"; "is"; "is"].
Proof.
  assert (Hperm : ["is"; "zen"; "is"] ≡ₚ ["zen"; "is"; "is"])
    by apply Permutation_swap.
  split;
    [apply (proj1 (count_matches_tokens dict_zen ["is"; "zen"] ["than"; "is"]))|].
  split; [exact Hperm|].
  apply (proj2 (proj2 (proj2 (count_matches_tokens dict_zen _ _))) Hperm).
Defined.

(** ** When the printed shift is right *)

Lemma rot_char_shift_inj r1 r2 c :
  is_letter c = true -> 0 <= r1 < 26 -> 0 <= r2 < 26 ->
  rot_char r1 c = rot_char r2 c -> r1 = r2.
Proof.
  intros Hc H1 H2 Heq. unfold rot_char in Heq. rewrite Hc in Heq.
  unfold is_letter in Hc. apply andb_true_iff in Hc as [Ha Hz].
  apply Z.leb_le in Ha. apply Z.leb_le in Hz.
  apply (f_equal PyStr.ord) in Heq.
  pose proof (Z.mod_pos_bound (PyStr.ord c - 97 - r1) 26 ltac:(lia)).
  pose proof (Z.mod_pos_bound (PyStr.ord c - 97 - r2) 26 ltac:(lia)).
  rewrite !ord_chr in Heq by lia.
  assert (Hm : (PyStr.ord c - 97 - r1) mod 26 = (PyStr.ord c - 97 - r2) mod 26)
    by lia.
  clear Heq. revert Hm. generalize (PyStr.ord c - 97). intros i Hm.
  rewrite (Z.mod_eq (i - r1) 26), (Z.mod_eq (i - r2) 26) in Hm by lia.
  assert (Hd : r2 - r1 = 26 * ((i - r1) / 26 - (i - r2) / 26)) by lia.
  assert (Hq : -1 < (i - r1) / 26 - (i - r2) / 26 < 1) by nia.
  lia.
Qed.

Lemma rotate_shift_inj r1 r2 t :
  has_letter t = true -> 0 <= r1 < 26 -> 0 <= r2 < 26 ->
  rotate r1 t = rotate r2 t -> r1 = r2.
Proof.
  intros Ht H1 H2. unfold rotate.
  induction t as [|c t IH]; simpl in *; [discriminate|].
  intros [= Hc Hrest].
  destruct (is_letter c) eqn:Hl.
  - now apply (rot_char_shift_inj r1 r2 c).
  - now apply IH.
Qed.

Lemma has_letter_lower_rotate r t :
  has_letter (rotate r t) = has_letter t.
Proof.
  unfold rotate. induction t as [|c t IH]; simpl; [reflexivity|].
  now rewrite rot_char_letter, IH.
Qed.

Lemma right_shifts_checked :
  forallb (fun k => Bool.eqb (triangular (Z.of_nat k + 1) mod 26 =? Z.of_nat k)
                             ((k =? 0)%nat || (k =? 1)%nat || (k =? 13)%nat))
          (seq 0 20) = true.
Proof. vm_compute. reflexivity. Qed.

(** X13.  The printed shift is the net rotation of the printed text
    only when it is 0, 1 or 13.  For a ciphertext that holds a letter, a
    run that ends printing the shift [k] has printed the ciphertext
    rotated by [k] exactly when [k] is 0, 1 or 13. *)
Theorem printed_shift_right_iff
    (dictionary : gmap string pyval) (s0 : string) (fuel : nat)
    (k : Z) (txt : string) :
  decypher dictionary s0 fuel = Some (k, txt) ->
  has_letter (PyStr.lower s0) = true ->
  (txt = rotate k (PyStr.lower s0) <-> k = 0 \/ k = 1 \/ k = 13).
Proof.
  unfold decypher, search. intros Hrun Hletter.
  destruct (while dictionary THRESHOLD fuel (init s0)) as [st|] eqn:Hw;
    [|discriminate Hrun].
  apply while_ends_early in Hw as (n & Hn & -> & _ & _).
  injection Hrun as <- <-.
  rewrite shift_passes, s_passes_upto_53 by lia. cbn [shift init].
  destruct n as [|m]; [lia|].
  replace (0 + Z.of_nat (S m) - 1) with (Z.of_nat m) by lia.
  rewrite Nat2Z.inj_succ. unfold Z.succ.
  pose proof (forallb_below _ 20 m right_shifts_checked ltac:(lia)) as Hc.
  cbv beta in Hc. apply Bool.eqb_prop in Hc.
  assert (Hiff : triangular (Z.of_nat m + 1) mod 26 = Z.of_nat m
                 <-> Z.of_nat m = 0 \/ Z.of_nat m = 1 \/ Z.of_nat m = 13).
  { rewrite <- Z.eqb_eq, Hc, !orb_true_iff, !Nat.eqb_eq. lia. }
  rewrite <- Hiff. split.
  - intros Heq. apply (rotate_shift_inj _ _ (PyStr.lower s0)) in Heq;
      [exact Heq | exact Hletter | apply Z.mod_pos_bound; lia | lia].
  - intros Heq. now rewrite Heq.
Qed.

Lemma printed_shift_right_iff_witness :
  decypher dict_a cipher_d 3 = Some (2, plain_a)
  /\ has_letter (PyStr.lower cipher_d) = true
  /\ plain_a <> rotate 2 (PyStr.lower cipher_d).
Proof.
  assert (Hrun : decypher dict_a cipher_d 3 = Some (2, plain_a))
    by (vm_compute; reflexivity).
  split; [exact Hrun|]. split; [reflexivity|].
  intros Heq.
  apply (printed_shift_right_iff dict_a cipher_d 3 2 plain_a Hrun eq_refl)
    in Heq.
  lia.
Defined.
